(** * Youtube-remote-upload: a shallow embedding of the authorization,
      upload and polling code, with the properties of its specification.

    Sources embedded here:
    - [src/youtube-remote-upload.js]  (the command-line entry point)
    - [src/scripts/youtubeAPI.js]     (class [YoutubeAPI])

    Everything the program awaits from the outside (the secret store, the
    remote service, the browser callback, the user) is a scripted input: a
    finite list of what the outside answered so far.  A loop that has used up
    its script is [Blocked]: it is still running and waiting.  This gives the
    unbounded polling loops of the source a total, executable model. *)

From Stdlib Require Import ZArith Lia Bool List String Ascii Floats.
From stdpp Require Import base option gmap strings list.
Import ListNotations.

Set Warnings "-register-all".

Local Open Scope string_scope.
Local Open Scope list_scope.
Local Open Scope Z_scope.

(** ** JavaScript values and the few builtins the source relies on *)

Module JS.

Inductive jsval : Type :=
| JUndefined
| JNull
| JBool (b : bool)
| JNum (n : Z)
| JStr (s : string)
| JArr (l : list jsval)
| JObj (fields : list (string * jsval)).

(** ToBoolean: [undefined], [null], [false], [0] and the empty string are
    falsy, everything else is truthy. *)
Definition truthy (v : jsval) : bool :=
  match v with
  | JUndefined | JNull => false
  | JBool b => b
  | JNum n => negb (n =? 0)
  | JStr s => negb (String.eqb s "")
  | JArr _ | JObj _ => true
  end.

(** [a || b] *)
Definition js_or (a b : jsval) : jsval := if truthy a then a else b.

(** A value reached through optional chaining ([a?.b?.c]): a broken chain
    is [undefined]. *)
Definition chain (o : option jsval) : jsval := default JUndefined o.

(** [v === s] for a string literal [s]. *)
Definition strict_eq_str (v : jsval) (s : string) : bool :=
  match v with
  | JStr t => String.eqb t s
  | _ => false
  end.

(** Positional binding of a call's arguments to the callee's parameters:
    parameter number [i] is argument number [i], [undefined] when the call
    passes fewer, and arguments beyond the parameter list are dropped. *)
Definition param (i : nat) (args : list jsval) : jsval :=
  nth i args JUndefined.

(** [s.split(sep)] for a one-character separator: never empty. *)
Fixpoint split (sep : ascii) (s : string) : list string :=
  match s with
  | EmptyString => [EmptyString]
  | String c rest =>
      if Ascii.eqb c sep then EmptyString :: split sep rest
      else match split sep rest with
           | [] => [String c EmptyString]
           | w :: ws => String c w :: ws
           end
  end.

(** [hay.indexOf(needle)]: position of the first occurrence, or -1. *)
Definition indexOf (hay needle : string) : Z :=
  match String.index 0 needle hay with
  | Some i => Z.of_nat i
  | None => -1
  end.

(** A string-valued property is truthy when present and not empty. *)
Definition truthy_str (o : option string) : bool :=
  match o with
  | Some s => negb (String.eqb s "")
  | None => false
  end.

End JS.
Import JS.

(** What an awaited computation has done by the end of its script. *)
Inductive flow (A : Type) : Type :=
| Done (a : A)            (* the promise resolved with [a] *)
| Threw (e : string)      (* the promise rejected / an exception escaped *)
| Blocked.                (* still awaiting the outside world *)
Arguments Done {A} a.
Arguments Threw {A} e.
Arguments Blocked {A}.

(** ** Secret store (keytar), [src/youtube-remote-upload.js] lines 15 and 24 *)

Module SecretStore.

(** Entries are addressed by the pair (service, account), compared as
    strings. *)
Definition getPassword (store : gmap (string * string) string)
           (service account : string) : option string :=
  store !! (service, account).

Definition setPassword (store : gmap (string * string) string)
           (service account password : string) : gmap (string * string) string :=
  <[(service, account) := password]> store.

End SecretStore.

(** The literals of the two calls in [youtube-remote-upload.js]. *)
Definition startup_get_key : string * string := ("YouTubeRemoteUpload", "refreshToken").
Definition post_init_set_key : string * string := ("youTubeRemoteUpload", "refreshToken").

(** Line 15: [keytar.getPassword('YouTubeRemoteUpload', 'refreshToken')]. *)
Definition read_refresh_token (store : gmap (string * string) string) : option string :=
  SecretStore.getPassword store (fst startup_get_key) (snd startup_get_key).

(** Line 24: [keytar.setPassword('youTubeRemoteUpload', 'refreshToken', token)]. *)
Definition save_refresh_token (store : gmap (string * string) string) (token : string)
  : gmap (string * string) string :=
  SecretStore.setPassword store (fst post_init_set_key) (snd post_init_set_key) token.

(** ** Consent flow: the local callback listener ([getAuthToken]) *)

(** A promise settles once: later [resolve]/[reject] calls have no effect. *)
Inductive promise (A : Type) : Type :=
| Pending
| Resolved (a : A)
| Rejected (e : string).
Arguments Pending {A}.
Arguments Resolved {A} a.
Arguments Rejected {A} e.

Definition resolve {A} (a : A) (p : promise A) : promise A :=
  match p with Pending => Resolved a | _ => p end.

Definition reject {A} (e : string) (p : promise A) : promise A :=
  match p with Pending => Rejected e | _ => p end.

(** An incoming HTTP request as the handler sees it: [req.url], and the
    query parameters of [new URL(req.url, `http://${req.headers.host}`)];
    [None] when the [URL] constructor throws. *)
Record request : Type := mkRequest {
  req_url : string;
  searchParams : option (list (string * string))
}.

(** [searchParams.get(name)]: the first value under [name], [null] if none. *)
Fixpoint searchParams_get (name : string) (ps : list (string * string)) : option string :=
  match ps with
  | [] => None
  | (k, v) :: rest => if String.eqb k name then Some v else searchParams_get name rest
  end.

(** The listener created by [http.createServer(...).listen(3000, ...)]. *)
Record listener : Type := mkListener {
  settled : promise string;   (* the promise [getAuthToken] returns *)
  listening : bool;           (* [false] once [server.close()] ran *)
  replies : list string;      (* bodies sent by [res.end], oldest first *)
  uncaught : bool             (* an 'error' event nobody listens to was
                                 raised: Node ends the process *)
}.

(** [res.end(body)] on a response that has not been ended yet. *)
Definition res_end (body : string) (l : listener) : listener :=
  mkListener (settled l) (listening l) (replies l ++ [body]) (uncaught l).

(** [res.end(body)] on a response that was already ended: nothing is sent,
    and the response emits a write-after-end 'error' event, for which the
    source registers no listener. *)
Definition res_end_again (l : listener) : listener :=
  mkListener (settled l) (listening l) (replies l) true.

Definition server_close (l : listener) : listener :=
  mkListener (settled l) false (replies l) (uncaught l).

Definition settle (f : promise string -> promise string) (l : listener) : listener :=
  mkListener (f (settled l)) (listening l) (replies l) (uncaught l).

(** The request handler, lines 253-274.  The two tests of lines 260 and 266
    are independent: when both hold, the response ended at line 261 is
    ended once more at line 267. *)
Definition handle_request (req : request) (l : listener) : listener :=
  if -1 <? indexOf (req_url req) "/oauth2callback" then
    match searchParams req with
    | None => settle (reject "TypeError: Invalid URL") l
    | Some ps =>
        let error := searchParams_get "error" ps in
        let code := searchParams_get "code" ps in
        let l1 :=
          if truthy_str code then
            settle (resolve (default "" code))
              (server_close
                 (res_end "Authentication successful! Please return to the console." l))
          else l in
        if truthy_str error then
          settle (reject (default "" error))
            (server_close
               (if truthy_str code then res_end_again l1
                else res_end "Authentication canceled. Please return to the console." l1))
        else l1
    end
  else l.

(** Requests reach the handler in arrival order for as long as the server
    listens. *)
Fixpoint serve (reqs : list request) (l : listener) : listener :=
  match reqs with
  | [] => l
  | r :: rest => if listening l then serve rest (handle_request r l) else l
  end.

Definition listen : listener := mkListener Pending true [] false.

Definition await {A} (p : promise A) : flow A :=
  match p with
  | Pending => Blocked
  | Resolved a => Done a
  | Rejected e => Threw e
  end.

Definition write_after_end : string :=
  "Error [ERR_STREAM_WRITE_AFTER_END]: write after end".

(** [getAuthToken(url)], lines 251-280, against the requests that arrive:
    what the awaiting caller gets.  After an unhandled 'error' event the
    caller gets nothing any more, the error ends the process. *)
Definition getAuthToken (reqs : list request) : flow string :=
  if uncaught (serve reqs listen)
  then Threw write_after_end
  else await (settled (serve reqs listen)).

(** ** Consent flow: [doOAuth] and [#authorize] *)

Record tokens : Type := mkTokens {
  access_token : option string;
  refresh_token : option string
}.

(** The [scope] array of the [generateAuthUrl] call, line 238. *)
Definition requested_scopes : list string :=
  [ "https://www.googleapis.com/auth/youtube.upload";
    "https://www.googleapis.com/auth/youtube.force-ssl" ].

(** Outcome of the body of the [try] at lines 312-319 up to the length test:
    the [scope] string of the tokeninfo answer, or a throw ([fetch] or
    [response.json()] failing, or [data.scope] not being a string). *)
Inductive tokeninfo_result : Type :=
| TokenInfoScope (scope : string)
| TokenInfoThrows.

(** What the outside does during one pass through [doOAuth]. *)
Record consent_round : Type := mkRound {
  callback_requests : list request;     (* requests hitting port 3000 *)
  token_exchange : option tokens;       (* [getToken(authToken)]; [None]: it throws *)
  tokeninfo : tokeninfo_result
}.

Inductive auth_event : Type :=
| EvAuthorize                           (* [#authorize] entered *)
| EvPrompt                              (* 'Press Enter to continue' answered *)
| EvGenerateAuthUrl (scope : list string)
| EvOpenBrowser                         (* listener up, [open(url)] *)
| EvConsentToBothMessage                (* [redoConsent]'s [console.error] *)
| EvGetToken (code : string)
| EvTokenInfo (access : option string)
| EvLogError                            (* [console.log('error', error)] *)
| EvRefreshAccessToken (refresh : string).

(** [doOAuth], lines 233-325.  One element of the script is consumed per
    pass; [redoConsent] (lines 283-293) is the recursive call.
    [port_in_use] tells whether a listener of an earlier pass still holds
    port 3000 (the handler's [catch] rejects without closing the server):
    then [listen(3000)] fails and the unhandled 'error' event ends the
    process.  An unhandled 'error' event of the listener's response ends
    the process as well: it is no rejection that the [catch] of line 301
    could handle. *)
Fixpoint doOAuth_on (port_in_use : bool) (script : list consent_round) {struct script}
  : list auth_event * flow tokens :=
  if port_in_use then
    ([EvGenerateAuthUrl requested_scopes], Threw "Error: listen EADDRINUSE")
  else
    let start := [EvGenerateAuthUrl requested_scopes; EvOpenBrowser] in
    match script with
    | [] => (start, Blocked)
    | r :: rest =>
        let redoConsent :=
          let '(t, o) :=
            doOAuth_on (listening (serve (callback_requests r) listen)) rest in
          (EvConsentToBothMessage :: EvPrompt :: t, o) in
        if uncaught (serve (callback_requests r) listen) then
          (start, Threw write_after_end)
        else
        match getAuthToken (callback_requests r) with
        | Blocked => (start, Blocked)
        | Threw _ => (start ++ fst redoConsent, snd redoConsent)
        | Done authToken =>
            match token_exchange r with
            | None => (start ++ [EvGetToken authToken], Threw "getToken failed")
            | Some tk =>
                let pre := start ++ [EvGetToken authToken; EvTokenInfo (access_token tk)] in
                match tokeninfo r with
                | TokenInfoScope scope =>
                    let scopes := split " "%char scope in
                    if (length scopes <? 2)%nat
                    then (pre ++ fst redoConsent, snd redoConsent)
                    else (pre, Done tk)
                | TokenInfoThrows => (pre ++ [EvLogError], Done tk)
                end
            end
        end
    end.

(** The call of line 327: no listener of this process exists yet. *)
Definition doOAuth (script : list consent_round) : list auth_event * flow tokens :=
  doOAuth_on false script.

(** [google.youtube({version: 'v3', auth: this.#oauth2Client})]: a service
    handle bound to the instance's one OAuth2 client. *)
Inductive youtube_service : Type := YoutubeV3.

(** What [#oauth2Client] holds as its credentials. *)
Inductive client_credentials : Type :=
| NoCredentials                          (* after the constructor *)
| RefreshTokenOnly (t : option string)   (* [setCredentials({refresh_token: t})] *)
| SilentlyRefreshed (t : option string)  (* a successful [refreshAccessToken]: the
                                            refreshed access token, with the
                                            refresh token [t] kept *)
| Exchanged (tk : tokens).               (* [setCredentials(tokens)], line 328 *)

(** An instance of [class YoutubeAPI].  [youTubeAPI] is the private field
    [#youTubeAPI]; [youtubeApi] is the public property [this.youtubeApi]
    that line 331 assigns.  [credentials] is what [#oauth2Client] holds. *)
Record YoutubeAPI : Type := mkYoutubeAPI {
  credentials : client_credentials;
  youTubeAPI : option youtube_service;
  refreshToken : option string;
  youtubeApi : option youtube_service
}.

(** The constructor, lines 23-31. *)
Definition new_YoutubeAPI (refreshToken : option string) : YoutubeAPI :=
  mkYoutubeAPI NoCredentials None refreshToken None.

(** [#authorize], lines 218-335. *)
Definition authorize (script : list consent_round) (self : YoutubeAPI)
  : list auth_event * flow YoutubeAPI :=
  let '(t, o) := doOAuth script in
  (EvAuthorize :: EvPrompt :: t,
   match o with
   | Done tk =>
       Done (mkYoutubeAPI (Exchanged tk) (youTubeAPI self) (refresh_token tk)
                          (Some YoutubeV3))
   | Threw e => Threw e
   | Blocked => Blocked
   end).

(** ** Session manager: [#isValid] and [init] *)

(** What [refreshAccessToken] hands to its callback. *)
Inductive refresh_outcome : Type :=
| RefreshAccepted
| RefreshRejected           (* the token was revoked or has expired *)
| RefreshNetworkFailure.

(** [#isValid], lines 343-353: any error is [false]. *)
Definition isValid (o : refresh_outcome) : bool :=
  match o with
  | RefreshAccepted => true
  | RefreshRejected | RefreshNetworkFailure => false
  end.

(** The remote side of one session initialization. *)
Record remote : Type := mkRemote {
  silent_refresh : string -> refresh_outcome;
  consent : list consent_round
}.

(** [init], lines 41-59.  A successful [refreshAccessToken] leaves the
    refreshed credentials in the client. *)
Definition init (w : remote) (self : YoutubeAPI) : list auth_event * flow YoutubeAPI :=
  if truthy_str (refreshToken self) then
    let tok := default "" (refreshToken self) in
    let self1 :=
      mkYoutubeAPI (RefreshTokenOnly (refreshToken self))
                   (youTubeAPI self) (refreshToken self) (youtubeApi self) in
    if isValid (silent_refresh w tok) then
      ([EvRefreshAccessToken tok],
       Done (mkYoutubeAPI (SilentlyRefreshed (refreshToken self)) (Some YoutubeV3)
                          (refreshToken self1) (youtubeApi self1)))
    else
      let '(t, o) := authorize (consent w) self1 in
      (EvRefreshAccessToken tok :: t, o)
  else authorize (consent w) self.

(** Lines 15-24 of [youtube-remote-upload.js]: read the token, construct,
    [init], write the token back. *)
Definition start_session (store : gmap (string * string) string) (w : remote)
  : flow (YoutubeAPI * gmap (string * string) string) :=
  let api := new_YoutubeAPI (read_refresh_token store) in
  match snd (init w api) with
  | Done api' =>
      match refreshToken api' with
      | Some t => Done (api', save_refresh_token store t)
      | None => Threw "TypeError: Password is required."
      end
  | Threw e => Threw e
  | Blocked => Blocked
  end.

(** ** Upload orchestrator: metadata merge and progress *)

(** A document with the two metadata sections, each an object or absent:
    the parsed [uploadDefaults.json], the caller's [videoDetails], and the
    request body. *)
Record details : Type := mkDetails {
  snippet : option (gmap string jsval);
  status : option (gmap string jsval)
}.

(** Object spread [{...o}]: the own properties of [o], none for
    [undefined]. *)
Definition spread (o : option (gmap string jsval)) : gmap string jsval :=
  default ∅ o.

(** [{...a, ...b}]: properties of [b] replace those of [a]. *)
Definition spread2 (a b : option (gmap string jsval)) : gmap string jsval :=
  spread b ∪ spread a.

(** [createDetailsObject], lines 193-200; [defaults] is the parsed
    defaults document. *)
Definition createDetailsObject (defaults userDefined : details) : details :=
  mkDetails (Some (spread2 (snippet defaults) (snippet userDefined)))
            (Some (spread2 (status defaults) (status userDefined))).

Module Progress.
Local Open Scope float_scope.

Definition two52 : float := 4503599627370496.

(** [Math.floor] on binary64: beyond 2^52 every value is integral; below,
    adding and removing 2^52 rounds to an integer, corrected downwards. *)
Definition Math_floor (x : float) : float :=
  if PrimFloat.is_nan x then x
  else if two52 <=? PrimFloat.abs x then x
  else
    let r := if 0 <=? x then (x + two52) - two52 else (x - two52) + two52 in
    if x <? r then r - 1 else r.

(** [Math.round]: the nearest integer, ties towards +infinity; [NaN] and the
    infinities are returned unchanged.  (Where JavaScript returns -0, for
    arguments from -0.5 to -0, this returns +0; the two are equal as
    numbers and print alike.) *)
Definition Math_round (x : float) : float :=
  let f := Math_floor x in
  if 0.5 <=? x - f then f + 1 else f.

(** Line 93: [Math.round((evt.bytesRead / fileSize) * 100)]. *)
Definition progress (bytesRead fileSize : float) : float :=
  Math_round ((bytesRead / fileSize) * 100).

(** A binary64 value that is neither zero, infinite nor [NaN]. *)
Definition finite_nonzero (x : float) : bool :=
  match Prim2SF x with
  | S754_finite _ _ _ => true
  | _ => false
  end.

End Progress.

(** ** Processing poller *)

(** The parts of a [videos.list] item that the pollers read. *)
Record processingProgress_t : Type := mkProgress { timeLeftMs : jsval }.

Record processingDetails_t : Type := mkProcessing {
  processingStatus : jsval;
  processingProgress : option processingProgress_t
}.

Record thumbnail_t : Type := mkThumbnail { url : option string }.
Record thumbnails_t : Type := mkThumbnails { high : option thumbnail_t }.
Record snippet_t : Type := mkSnippet { thumbnails : option thumbnails_t }.

Record video : Type := mkVideo {
  processingDetails : option processingDetails_t;
  video_snippet : option snippet_t
}.

(** A [videos.list] answer: [details.data.items]. *)
Record response : Type := mkResponse { items : list video }.

Inductive poll_event : Type :=
| EvSetTimeout (delay : jsval)
| EvVideosList (id : string)
| EvFetch (target : string)
| EvLogThumbnailError.

(** [video?.processingDetails?.processingStatus] of [items[0]]. *)
Definition status_of (r : response) : jsval :=
  chain (processingStatus <$> (head (items r) ≫= processingDetails)).

(** [video?.processingDetails?.processingProgress?.timeLeftMs]. *)
Definition timeLeftMs_of (r : response) : jsval :=
  chain (timeLeftMs <$> ((head (items r) ≫= processingDetails) ≫= processingProgress)).

(** [video?.snippet?.thumbnails?.high?.url]. *)
Definition thumbnailURL_of (r : response) : option string :=
  (((head (items r) ≫= video_snippet) ≫= thumbnails) ≫= high) ≫= url.

(** [checkVideoProcessing], lines 158-181.  The function has the single
    parameter [timeLeftMs]; [args] is the argument list of the call.  The
    first call (line 185) passes [(timeLeftMs)], the recursive call
    (line 179) passes [(id, newTimeLeftMs)]. *)
Fixpoint checkVideoProcessing (id : string) (args : list jsval) (rs : list response)
  : list poll_event * flow unit :=
  let timeLeftMs := param 0 args in
  match rs with
  | [] => ([EvSetTimeout timeLeftMs; EvVideosList id], Blocked)
  | details :: rest =>
      if strict_eq_str (status_of details) "succeeded" then
        ([EvSetTimeout timeLeftMs; EvVideosList id], Done tt)
      else
        let newTimeLeftMs := js_or (timeLeftMs_of details) timeLeftMs in
        let '(t, o) := checkVideoProcessing id [JStr id; newTimeLeftMs] rest in
        (EvSetTimeout timeLeftMs :: EvVideosList id :: t, o)
  end.

(** What [fetch(thumbnailURL)] does: a response with a status code, or a
    throw. *)
Inductive fetch_result : Type :=
| FetchResponse (code : Z)
| FetchThrows.

(** [response.ok]: the status is in the range 200-299. *)
Definition ok (code : Z) : bool := (200 <=? code) && (code <=? 299).

(** One pass of the thumbnail loop as the outside answers it. *)
Record thumb_round : Type := mkThumbRound {
  thumb_details : response;
  thumb_fetch : fetch_result
}.

(** [checkThumbnailProcessing], lines 125-151. *)
Fixpoint checkThumbnailProcessing (id : string) (rounds : list thumb_round)
  : list poll_event * flow unit :=
  let start := [EvSetTimeout (JNum 5000); EvVideosList id] in
  match rounds with
  | [] => (start, Blocked)
  | r :: rest =>
      let thumbnailURL := thumbnailURL_of (thumb_details r) in
      if truthy_str thumbnailURL then
        let target := default "" thumbnailURL in
        let again := checkThumbnailProcessing id rest in
        match thumb_fetch r with
        | FetchResponse code =>
            if negb (ok code)
            then (start ++ EvFetch target :: fst again, snd again)
            else (start ++ [EvFetch target], Done tt)
        | FetchThrows =>
            (start ++ EvFetch target :: EvLogThumbnailError :: fst again, snd again)
        end
      else (start, Done tt)
  end.

(** [processing(id, timeLeftMs = 3000)], lines 119-190: the video loop,
    then the thumbnail loop. *)
Definition processing (id : string) (rs : list response) (rounds : list thumb_round)
  : list poll_event * flow unit :=
  let timeLeftMs := JNum 3000 in
  let '(t1, o1) := checkVideoProcessing id [timeLeftMs] rs in
  match o1 with
  | Done _ =>
      let '(t2, o2) := checkThumbnailProcessing id rounds in
      (t1 ++ t2, o2)
  | _ => (t1, o1)
  end.

(** ** [uploadVideo] *)

(** What the outside does during one [uploadVideo] call. *)
Record upload_world : Type := mkUploadWorld {
  defaults_document : details;          (* parsed [uploadDefaults.json] *)
  fileSize : float;                     (* [fs.statSync(fileName).size] *)
  chunks : list float;                  (* [evt.bytesRead] of each progress event *)
  insert_id : option string;            (* [videos.insert(...)].data.id; [None]: rejected *)
  status_answers : list response;
  thumbnail_answers : list thumb_round
}.

Inductive upload_event : Type :=
| EvInsert (requestBody : details)      (* [videos.insert] issued *)
| EvProgress (percent : float)          (* `${progress}% complete` written *)
| EvConsoleError
| EvPoll (e : poll_event).

(** [upload], lines 75-110.  Reading [this.#youTubeAPI.videos] throws a
    [TypeError] when the private field is still [undefined]. *)
Definition upload (self : YoutubeAPI) (w : upload_world) (body : details)
  : list upload_event * flow string :=
  match youTubeAPI self with
  | None =>
      ([EvConsoleError],
       Threw "TypeError: Cannot read properties of undefined (reading 'videos')")
  | Some _ =>
      let shown := map (fun b => EvProgress (Progress.progress b (fileSize w))) (chunks w) in
      match insert_id w with
      | Some id => (EvInsert body :: shown, Done id)
      | None => (EvInsert body :: shown ++ [EvConsoleError], Threw "insert rejected")
      end
  end.

(** [uploadVideo], lines 66-211. *)
Definition uploadVideo (self : YoutubeAPI) (w : upload_world) (videoDetails : details)
  : list upload_event * flow string :=
  let detailsObj := createDetailsObject (defaults_document w) videoDetails in
  let '(t, o) := upload self w detailsObj in
  match o with
  | Done id =>
      let '(tp, op) := processing id (status_answers w) (thumbnail_answers w) in
      (t ++ map EvPoll tp,
       match op with
       | Done _ => Done id
       | Threw e => Threw e
       | Blocked => Blocked
       end)
  | _ => (t, o)
  end.

(** ** Vocabulary of the statements: observations on runs, and sample inputs *)

(** A first run in which the user consents to both scopes at once. *)
Definition callback_with_code (code : string) : request :=
  mkRequest ("/oauth2callback?code=" +:+ code) (Some [("code", code)]).

Definition first_run : remote :=
  mkRemote (fun _ => RefreshRejected)
    [ mkRound [callback_with_code "4/0Ab"]
              (Some (mkTokens (Some "ya29.a0") (Some "1//0g")))
              (TokenInfoScope
                 "https://www.googleapis.com/auth/youtube.upload https://www.googleapis.com/auth/youtube.force-ssl") ].

(** How often [#authorize] was entered. *)
Definition is_authorize (e : auth_event) : bool :=
  match e with EvAuthorize => true | _ => false end.

Definition consent_flows (t : list auth_event) : nat :=
  length (List.filter is_authorize t).

Definition matches_callback (r : request) : bool :=
  -1 <? indexOf (req_url r) "/oauth2callback".

(** The request "/oauth2callback?code=&error=access_denied": both
    parameters are present, the code is the empty string. *)
Definition empty_code_request : request :=
  mkRequest "/oauth2callback?code=&error=access_denied"
            (Some [("code", ""); ("error", "access_denied")]).

(** Both requested scopes occur in the granted list. *)
Definition grants_both (scopes : list string) : bool :=
  forallb (fun s => existsb (String.eqb s) scopes) requested_scopes.

(** Every granted scope is one of the requested ones. *)
Definition among_requested (scopes : list string) : bool :=
  forallb (fun s => existsb (String.eqb s) requested_scopes) scopes.

(** No scope is listed twice. *)
Fixpoint distinct (scopes : list string) : bool :=
  match scopes with
  | [] => true
  | s :: rest => negb (existsb (String.eqb s) rest) && distinct rest
  end.

Definition is_consent_message (e : auth_event) : bool :=
  match e with EvConsentToBothMessage => true | _ => false end.

(** The user was told to consent to both items, i.e. [redoConsent] ran. *)
Definition reprompted (t : list auth_event) : bool := existsb is_consent_message t.

(** Only the upload scope was granted. *)
Definition upload_only_round : consent_round :=
  mkRound [callback_with_code "4/0Ab"]
          (Some (mkTokens (Some "ya29.a0") (Some "1//0g")))
          (TokenInfoScope "https://www.googleapis.com/auth/youtube.upload").

(** The answer reports the status "succeeded". *)
Definition succeeded (r : response) : bool :=
  strict_eq_str (status_of r) "succeeded".

(** The delays handed to [setTimeout], in order. *)
Fixpoint waits (t : list poll_event) : list jsval :=
  match t with
  | [] => []
  | EvSetTimeout d :: rest => d :: waits rest
  | _ :: rest => waits rest
  end.

(** The number of [videos.list] queries issued. *)
Fixpoint queries (t : list poll_event) : nat :=
  match t with
  | [] => 0
  | EvVideosList _ :: rest => S (queries rest)
  | _ :: rest => queries rest
  end.

(** The number of answers before the first one that reports success. *)
Fixpoint pending_prefix (rs : list response) : nat :=
  match rs with
  | [] => 0
  | r :: rest => if succeeded r then 0 else S (pending_prefix rest)
  end.

(** The wait sequence as the specification words it: the first wait is the
    initial interval; after an answer that does not end the loop, the next
    wait is the answer's estimated remaining time when present, and the
    previous interval otherwise. *)
Fixpoint claimed_waits (interval : jsval) (rs : list response) : list jsval :=
  interval ::
  match rs with
  | [] => []
  | r :: rest =>
      if succeeded r then []
      else claimed_waits (js_or (timeLeftMs_of r) interval) rest
  end.

Definition answer (st : string) (left : option Z) : response :=
  mkResponse
    [mkVideo (Some (mkProcessing (JStr st) (mkProgress <$> (JNum <$> left)))) None].

Definition still_pending (r : response) : bool := negb (succeeded r).

(** The pass ends in a retry: the thumbnail URL is there, and fetching it
    gave a status outside 200-299 or threw. *)
Definition retries (r : thumb_round) : bool :=
  truthy_str (thumbnailURL_of (thumb_details r))
  && match thumb_fetch r with
     | FetchResponse code => negb (ok code)
     | FetchThrows => true
     end.

(** The timers and status queries of a trace, in order. *)
Fixpoint skeleton (t : list poll_event) : list poll_event :=
  match t with
  | [] => []
  | EvSetTimeout d :: rest => EvSetTimeout d :: skeleton rest
  | EvVideosList i :: rest => EvVideosList i :: skeleton rest
  | _ :: rest => skeleton rest
  end.

(** The number of GET requests for the thumbnail. *)
Fixpoint fetches (t : list poll_event) : nat :=
  match t with
  | [] => 0
  | EvFetch _ :: rest => S (fetches rest)
  | _ :: rest => fetches rest
  end.

(** [n] passes, each a 5000 ms timer followed by a status query. *)
Fixpoint passes (id : string) (n : nat) : list poll_event :=
  match n with
  | O => []
  | S k => EvSetTimeout (JNum 5000) :: EvVideosList id :: passes id k
  end.

Definition has_thumbnail (r : thumb_round) : bool :=
  truthy_str (thumbnailURL_of (thumb_details r)).

Definition with_thumbnail (target : string) : response :=
  mkResponse
    [mkVideo None (Some (mkSnippet (Some (mkThumbnails (Some (mkThumbnail (Some target)))))))].

(** The [snippet] and [status] objects of a document. *)
Definition snippet_of (d : details) : gmap string jsval := spread (snippet d).
Definition status_of_details (d : details) : gmap string jsval := spread (status d).

(** ** The interactive prompt and the terminal helpers

    [src/youtube-remote-upload.js] lines 39-88 and [src/scripts/utility.js]. *)

Definition squote : string := String "039"%char EmptyString.
Definition dquote : string := String "034"%char EmptyString.
Definition newline : string := String "010"%char EmptyString.
Definition carriage_return : string := String "013"%char EmptyString.

(** [s.startsWith(p)]. *)
Definition startsWith (s p : string) : bool := String.prefix p s.

(** [s.endsWith(p)]. *)
Definition endsWith (s p : string) : bool :=
  (String.length p <=? String.length s)%nat
  && String.eqb
       (String.substring (String.length s - String.length p) (String.length p) s) p.

(** [s.substring(start, end)]: both indices are clamped to the range from 0
    to the length, and exchanged when the first exceeds the second. *)
Definition substring (s : string) (start stop : Z) : string :=
  let len := Z.of_nat (String.length s) in
  let a := Z.min (Z.max start 0) len in
  let b := Z.min (Z.max stop 0) len in
  String.substring (Z.to_nat (Z.min a b)) (Z.to_nat (Z.max a b - Z.min a b)) s.

(** [s.charAt(0)]: the first character as a string, empty for the empty
    string. *)
Definition charAt0 (s : string) : string :=
  match s with
  | EmptyString => EmptyString
  | String c _ => String c EmptyString
  end.

(** [s.slice(1)]. *)
Definition slice1 (s : string) : string :=
  match s with
  | EmptyString => EmptyString
  | String _ rest => rest
  end.

(** The [filter] of the 'videoPath' question, lines 45-55 of
    [youtube-remote-upload.js]. *)
Definition videoPath_filter (val : string) : string :=
  if (startsWith val squote || startsWith val dquote)
     && (endsWith val squote || endsWith val dquote)
  then substring val 1 (Z.of_nat (String.length val) - 1)
  else val.

Inductive term_event : Type :=
| TimerFired (ms : Z)           (* a [setTimeout]/[setInterval] delay elapsed *)
| StdoutWrite (s : string).     (* [process.stdout.write(s)] *)

(** Everything written to the terminal, in order. *)
Fixpoint written (t : list term_event) : string :=
  match t with
  | [] => EmptyString
  | StdoutWrite s :: rest => String.append s (written rest)
  | TimerFired _ :: rest => written rest
  end.

(** The number of timers that fired. *)
Fixpoint timers (t : list term_event) : nat :=
  match t with
  | [] => 0
  | TimerFired _ :: rest => S (timers rest)
  | StdoutWrite _ :: rest => timers rest
  end.

(** [animateText(text, speedMS)], [utility.js] lines 2-12.  Each call waits
    for one timer; [fuel] is the number of timers that fire while the run is
    observed, and a run that needs more is [Blocked]. *)
Fixpoint animateText (fuel : nat) (text : string) (speedMS : Z)
  : list term_event * flow unit :=
  match fuel with
  | O => ([], Blocked)
  | S fuel' =>
      if (String.length text =? 1)%nat then
        ([TimerFired speedMS; StdoutWrite (charAt0 text); StdoutWrite newline], Done tt)
      else
        let '(t, o) := animateText fuel' (slice1 text) speedMS in
        (TimerFired speedMS :: StdoutWrite (charAt0 text) :: t, o)
  end.

(** [textFrames[i % textFrames.length]] inside a template literal: for an
    empty array the index is [NaN] and the element [undefined]. *)
Definition frame_at (textFrames : list string) (i : nat) : string :=
  match textFrames with
  | [] => "undefined"
  | _ => nth (i mod length textFrames) textFrames "undefined"
  end.

(** What happens to a spinner after [loadingText] returned: the interval
    fires, or the returned function is called. *)
Inductive spinner_input : Type := Tick | Cancel.

(** The closure state of [loadingText]: the counter [i], and whether the
    interval is still set. *)
Record spinner : Type := mkSpinner {
  counter : nat;
  interval_set : bool
}.

(** [loadingText(textFrames, speedMS)], [utility.js] lines 21-31, run
    against a sequence of inputs. *)
Fixpoint loadingText_run (textFrames : list string) (speedMS : Z)
         (inputs : list spinner_input) (st : spinner) : list term_event :=
  match inputs with
  | [] => []
  | Tick :: rest =>
      if interval_set st then
        TimerFired speedMS
          :: StdoutWrite (String.append carriage_return (frame_at textFrames (counter st)))
          :: loadingText_run textFrames speedMS rest (mkSpinner (S (counter st)) true)
      else loadingText_run textFrames speedMS rest st
  | Cancel :: rest =>
      StdoutWrite newline
        :: loadingText_run textFrames speedMS rest (mkSpinner (counter st) false)
  end.

Definition loadingText (textFrames : list string) (speedMS : Z)
           (inputs : list spinner_input) : list term_event :=
  loadingText_run textFrames speedMS inputs (mkSpinner 0 true).

(** ** The command-line program, [youtube-remote-upload.js] *)

(** The answers of the three questions, after [filter]. *)
Record prompt_answers : Type := mkAnswers {
  videoPath : string;
  videoTitle : string;
  videoDescription : string
}.

(** The second argument of the [uploadVideo] call, lines 78-83. *)
Definition cli_details (a : prompt_answers) : details :=
  mkDetails
    (Some (<["title" := JStr (videoTitle a)]>
             (<["description" := JStr (videoDescription a)]> ∅)))
    None.

(** Lines 86-87: the text printed and copied to the clipboard. *)
Definition watch_url (id : string) : string :=
  String.append "https://www.youtube.com/watch?v=" id.

(** The whole program: session start, upload, link.  The result is the
    clipboard text and the secret store the run leaves behind. *)
Definition main (store : gmap (string * string) string) (w : remote)
           (uw : upload_world) (a : prompt_answers)
  : flow (string * gmap (string * string) string) :=
  match start_session store w with
  | Done (api, store') =>
      match snd (uploadVideo api uw (cli_details a)) with
      | Done id => Done (watch_url id, store')
      | Threw e => Threw e
      | Blocked => Blocked
      end
  | Threw e => Threw e
  | Blocked => Blocked
  end.

(** A single or a double quote. *)
Definition is_quote (c : ascii) : bool :=
  Ascii.eqb c "039"%char || Ascii.eqb c "034"%char.

(** The terminal events of spinner ticks number [i], [i+1], ..., [k] of
    them. *)
Definition spinner_ticks (textFrames : list string) (speedMS : Z) (i k : nat)
  : list term_event :=
  flat_map
    (fun j => [TimerFired speedMS;
               StdoutWrite (String.append carriage_return (frame_at textFrames j))])
    (seq i k).

(** A request that leaves the listener as it is: one for another path, or
    one for the callback path whose [code] and [error] are both absent or
    empty. *)
Definition idle_request (r : request) : bool :=
  negb (matches_callback r)
  || match searchParams r with
     | Some ps =>
         negb (truthy_str (searchParams_get "code" ps))
         && negb (truthy_str (searchParams_get "error" ps))
     | None => false
     end.

(** A pass in which the user declined: the promise was rejected, the
    server closed, and no unhandled error ended the process. *)
Definition cancelled (r : consent_round) : bool :=
  match getAuthToken (callback_requests r) with
  | Threw _ =>
      negb (listening (serve (callback_requests r) listen))
      && negb (uncaught (serve (callback_requests r) listen))
  | _ => false
  end.

(** What a declined pass contributes to the run. *)
Definition cancelled_pass : list auth_event :=
  [EvGenerateAuthUrl requested_scopes; EvOpenBrowser; EvConsentToBothMessage; EvPrompt].

Fixpoint cancelled_passes (k : nat) : list auth_event :=
  match k with
  | O => []
  | S k' => cancelled_pass ++ cancelled_passes k'
  end.

(** The scope check of a pass lets the tokens through: the lookup threw, or
    the scope string has at least two entries. *)
Definition passes_scope_check (r : consent_round) : bool :=
  match tokeninfo r with
  | TokenInfoThrows => true
  | TokenInfoScope scope => negb (length (split " "%char scope) <? 2)%nat
  end.

(** The pass delivered a code, exchanged it for [tk], and let it through. *)
Definition pass_yields (r : consent_round) (tk : tokens) : Prop :=
  (∃ code, getAuthToken (callback_requests r) = Done code)
  ∧ token_exchange r = Some tk
  ∧ passes_scope_check r = true.

(** The number of poller events in an upload trace. *)
Fixpoint polls (t : list upload_event) : nat :=
  match t with
  | [] => 0
  | EvPoll _ :: rest => S (polls rest)
  | _ :: rest => polls rest
  end.

(** The pass ends the thumbnail loop. *)
Definition ends_thumbnail_loop (r : thumb_round) : bool := negb (retries r).

(** The secret store after the session start of a run: written only when
    the session start completed. *)
Definition store_after (store : gmap (string * string) string) (w : remote)
  : gmap (string * string) string :=
  match start_session store w with
  | Done (_, store') => store'
  | _ => store
  end.

(** What the outside does during one run of the program. *)
Record run_input : Type := mkRun {
  run_remote : remote;
  run_upload : upload_world;
  run_answers : prompt_answers
}.

(** Consecutive runs of the program on one secret store. *)
Fixpoint runs (store : gmap (string * string) string) (inputs : list run_input)
  : list (flow (string * gmap (string * string) string)) :=
  match inputs with
  | [] => []
  | i :: rest =>
      main store (run_remote i) (run_upload i) (run_answers i)
        :: runs (store_after store (run_remote i)) rest
  end.

Definition sample_upload (insert : option string) : upload_world :=
  mkUploadWorld (mkDetails None None) 2048%float [1024%float; 2048%float] insert
                [answer "processing" (Some 7000); answer "succeeded" None]
                [mkThumbRound (mkResponse [mkVideo None None]) FetchThrows].

Definition declined_round : consent_round :=
  mkRound [mkRequest "/oauth2callback?error=access_denied"
                     (Some [("error", "access_denied")])]
          None TokenInfoThrows.

(** The status answer carries a thumbnail URL that is not the empty
    string. *)
Definition thumbnail_url_present (r : thumb_round) : bool :=
  match thumbnailURL_of (thumb_details r) with
  | Some (String _ _) => true
  | _ => false
  end.

(** The GET for the thumbnail was answered with a status from 200 to 299. *)
Definition get_answered_2xx (r : thumb_round) : bool :=
  match thumb_fetch r with
  | FetchResponse code => (200 <=? code) && (code <? 300)
  | FetchThrows => false
  end.

(** The GET for the thumbnail was answered with a status below 200 or from
    300 on, or ended in a transport error. *)
Definition get_failed (r : thumb_round) : bool :=
  match thumb_fetch r with
  | FetchResponse code => (code <? 200) || (300 <=? code)
  | FetchThrows => true
  end.

(** A pass with a thumbnail URL whose GET failed. *)
Definition failing_pass (r : thumb_round) : bool :=
  thumbnail_url_present r && get_failed r.

(** * Properties *)

(** ** Secret store keys *)

Lemma save_then_read (store : gmap (string * string) string) (token : string) :
  read_refresh_token (save_refresh_token store token) = read_refresh_token store.
Proof.
  unfold read_refresh_token, save_refresh_token,
    SecretStore.getPassword, SecretStore.setPassword.
  apply lookup_insert_ne. discriminate.
Qed.

(** C1: the token written after a successful session initialization is not
    the entry the next process start reads.  The two calls name different
    services ('youTubeRemoteUpload' against 'YouTubeRemoteUpload'), so the
    write never changes what the startup read returns; after a first run
    that obtained the token "1//0g" the startup read still finds nothing. *)
Theorem refresh_token_not_read_back :
  startup_get_key ≠ post_init_set_key
  ∧ (∀ store token,
        read_refresh_token (save_refresh_token store token) = read_refresh_token store)
  ∧ (∃ api store',
        start_session ∅ first_run = Done (api, store')
        ∧ refreshToken api = Some "1//0g"
        ∧ store' !! post_init_set_key = Some "1//0g"
        ∧ read_refresh_token store' = None).
Proof.
  split; [discriminate |]. split; [apply save_then_read |].
  exists (mkYoutubeAPI (Exchanged (mkTokens (Some "ya29.a0") (Some "1//0g"))) None
                   (Some "1//0g") (Some YoutubeV3)),
    (save_refresh_token ∅ "1//0g").
  split; [reflexivity |]. split; [reflexivity |]. split.
  - apply lookup_insert_eq.
  - rewrite save_then_read. apply lookup_empty.
Qed.

(** ** Session manager *)

Lemma doOAuth_on_no_authorize script :
  ∀ port, consent_flows (fst (doOAuth_on port script)) = 0%nat.
Proof.
  induction script as [| r rest IH]; intros [|]; try reflexivity.
  cbn [doOAuth_on].
  specialize (IH (listening (serve (callback_requests r) listen))).
  destruct (doOAuth_on _ rest) as [t o] eqn:E. cbn [fst snd] in *.
  assert (Hredo : consent_flows (EvConsentToBothMessage :: EvPrompt :: t) = 0%nat)
    by exact IH.
  unfold consent_flows in *.
  destruct (uncaught (serve (callback_requests r) listen)); [reflexivity |].
  destruct (getAuthToken (callback_requests r)) as [code | e |]; cbn [fst snd];
    [| exact Hredo | reflexivity].
  destruct (token_exchange r) as [tk |]; [| reflexivity].
  destruct (tokeninfo r) as [scope |]; [| reflexivity].
  destruct (length (split " " scope) <? 2)%nat; cbn [fst snd]; [exact Hredo | reflexivity].
Qed.

Lemma doOAuth_no_authorize script :
  consent_flows (fst (doOAuth script)) = 0%nat.
Proof. apply doOAuth_on_no_authorize. Qed.

Lemma authorize_once script self :
  consent_flows (fst (authorize script self)) = 1%nat.
Proof.
  unfold authorize. pose proof (doOAuth_no_authorize script) as H.
  destruct (doOAuth script) as [t o]. cbn [fst] in *.
  unfold consent_flows in *. cbn [List.filter is_authorize length].
  now rewrite H.
Qed.

Lemma authorize_keeps_private_handle script self api :
  snd (authorize script self) = Done api →
  youTubeAPI api = youTubeAPI self ∧ youtubeApi api = Some YoutubeV3.
Proof.
  unfold authorize. destruct (doOAuth script) as [t [tk | e |]]; cbn [snd];
    intros H; inversion H; subst; split; reflexivity.
Qed.

(** C9: [init] enters the consent flow not at all when the stored token is
    one the silent refresh accepts, and exactly once when the silent
    refresh fails (a rejection and a network failure take the same path and
    give the same run) or when no token is stored; the empty string counts
    as no token, being falsy. *)
Theorem init_consent_branching (w : remote) (self : YoutubeAPI) :
  (∀ t, refreshToken self = Some t → t ≠ "" →
        silent_refresh w t = RefreshAccepted →
        consent_flows (fst (init w self)) = 0%nat)
  ∧ (∀ t, refreshToken self = Some t → t ≠ "" →
          silent_refresh w t ≠ RefreshAccepted →
          consent_flows (fst (init w self)) = 1%nat
          ∧ init w self
            = init (mkRemote (fun _ => RefreshRejected) (consent w)) self
          ∧ init w self
            = init (mkRemote (fun _ => RefreshNetworkFailure) (consent w)) self)
  ∧ (refreshToken self = None ∨ refreshToken self = Some "" →
     consent_flows (fst (init w self)) = 1%nat).
Proof.
  assert (Htruthy : ∀ t, t ≠ "" → truthy_str (Some t) = true).
  { intros t Ht. cbn. destruct (String.eqb_spec t ""); [contradiction | reflexivity]. }
  split; [| split].
  - intros t Ht Hne Hacc. unfold init. rewrite Ht, (Htruthy t Hne).
    change (default "" (Some t)) with t. rewrite Hacc. reflexivity.
  - intros t Ht Hne Hrej. unfold init. rewrite Ht, (Htruthy t Hne).
    change (default "" (Some t)) with t. cbn [consent silent_refresh].
    assert (Hv : isValid (silent_refresh w t) = false)
      by (destruct (silent_refresh w t); [contradiction | reflexivity | reflexivity]).
    rewrite Hv. cbn [isValid]. split; [| split; reflexivity].
    pose proof (authorize_once (consent w)
      (mkYoutubeAPI (RefreshTokenOnly (Some t)) (youTubeAPI self) (Some t)
                    (youtubeApi self))) as H.
    destruct (authorize _ _) as [tr o]. cbn [fst] in *. exact H.
  - intros [Ht | Ht]; unfold init; rewrite Ht; cbn [truthy_str String.eqb negb];
      apply authorize_once.
Qed.

Lemma init_consent_branching_witness :
  consent_flows (fst (init (mkRemote (fun _ => RefreshAccepted) []) (new_YoutubeAPI (Some "1//0g")))) = 0%nat
  ∧ consent_flows (fst (init (mkRemote (fun _ => RefreshNetworkFailure) []) (new_YoutubeAPI (Some "1//0g")))) = 1%nat
  ∧ consent_flows (fst (init first_run (new_YoutubeAPI None))) = 1%nat.
Proof.
  split; [| split].
  - apply (proj1 (init_consent_branching _ _) "1//0g");
      [reflexivity | discriminate | reflexivity].
  - apply (proj1 (proj2 (init_consent_branching _ _)) "1//0g");
      [reflexivity | discriminate | discriminate].
  - apply (proj2 (proj2 (init_consent_branching _ _))). left. reflexivity.
Defined.

(** The valid-token path does set the private handle. *)
Lemma init_valid_sets_private_handle w self t api :
  refreshToken self = Some t → t ≠ "" →
  silent_refresh w t = RefreshAccepted →
  snd (init w self) = Done api →
  youTubeAPI api = Some YoutubeV3.
Proof.
  intros Ht Hne Hacc. unfold init. rewrite Ht. cbn [truthy_str].
  destruct (String.eqb_spec t ""); [contradiction |]. cbn [negb].
  change (default "" (Some t)) with t. rewrite Hacc. cbn [isValid snd].
  intros H. inversion H. reflexivity.
Qed.

(** The consent path leaves it as it was. *)
Lemma init_consent_keeps_private_handle w self api :
  refreshToken self = None →
  snd (init w self) = Done api →
  youTubeAPI api = youTubeAPI self ∧ youtubeApi api = Some YoutubeV3.
Proof.
  intros Ht. unfold init. rewrite Ht. cbn [truthy_str].
  apply authorize_keeps_private_handle.
Qed.

(** C2: after [init] completes through a fresh consent flow, the handle
    that [uploadVideo] uses, the private field [#youTubeAPI], is still
    unset: [#authorize] stored the service under the public property
    [youtubeApi] instead.  [uploadVideo] then throws before any insert call
    is issued, whatever the file, the defaults and the remote side are.  On
    the silent-refresh path the same field is set and the insert is
    issued. *)
Theorem consent_path_leaves_upload_handle_unset :
  ∃ api,
    snd (init first_run (new_YoutubeAPI None)) = Done api
    ∧ youTubeAPI api = None
    ∧ youtubeApi api = Some YoutubeV3
    ∧ (∀ w videoDetails,
          uploadVideo api w videoDetails
          = ([EvConsoleError],
             Threw "TypeError: Cannot read properties of undefined (reading 'videos')"))
    ∧ (∃ api',
          snd (init (mkRemote (fun _ => RefreshAccepted) []) (new_YoutubeAPI (Some "1//0g")))
          = Done api'
          ∧ youTubeAPI api' = Some YoutubeV3
          ∧ ∀ w body, head (fst (upload api' w body)) = Some (EvInsert body)).
Proof.
  exists (mkYoutubeAPI (Exchanged (mkTokens (Some "ya29.a0") (Some "1//0g"))) None
                  (Some "1//0g") (Some YoutubeV3)).
  split; [reflexivity |]. split; [reflexivity |]. split; [reflexivity |].
  split; [intros w d; reflexivity |].
  exists (mkYoutubeAPI (SilentlyRefreshed (Some "1//0g")) (Some YoutubeV3)
                  (Some "1//0g") None).
  split; [reflexivity |]. split; [reflexivity |].
  intros w body. unfold upload. cbn [youTubeAPI].
  destruct (insert_id w); reflexivity.
Qed.

(** ** The callback listener *)

Lemma serve_ignores_other_paths pre reqs l :
  forallb (fun r => negb (matches_callback r)) pre = true →
  serve (pre ++ reqs) l = serve reqs l.
Proof.
  induction pre as [| r pre IH]; intros H; [reflexivity |].
  cbn [forallb] in H. apply andb_prop in H as [Hr Hpre].
  cbn [app serve]. unfold handle_request.
  unfold matches_callback in Hr. apply negb_true_iff in Hr. rewrite Hr.
  rewrite (IH Hpre). destruct (listening l) eqn:E; [reflexivity |].
  destruct reqs; cbn [serve]; [reflexivity | now rewrite E].
Qed.

Lemma serve_closed reqs l : listening l = false → serve reqs l = l.
Proof. intros H. destruct reqs; cbn [serve]; [reflexivity | now rewrite H]. Qed.

(** The promise is only ever resolved by the branch that closes the server. *)
Lemma handle_request_resolved_closed r l :
  (∀ c, settled l = Resolved c → listening l = false) →
  ∀ c, settled (handle_request r l) = Resolved c →
       listening (handle_request r l) = false.
Proof.
  intros Hl c. unfold handle_request.
  destruct (-1 <? indexOf (req_url r) "/oauth2callback"); [| apply Hl].
  destruct (searchParams r) as [ps |].
  - destruct (truthy_str (searchParams_get "code" ps)),
             (truthy_str (searchParams_get "error" ps));
      cbn [listening settle server_close res_end]; try reflexivity. apply Hl.
  - cbn [settled listening settle]. intros H. apply (Hl c).
    destruct (settled l); [discriminate | exact H | discriminate].
Qed.

Lemma serve_resolved_closed reqs :
  ∀ l, (∀ c, settled l = Resolved c → listening l = false) →
       ∀ c, settled (serve reqs l) = Resolved c → listening (serve reqs l) = false.
Proof.
  induction reqs as [| r reqs IH]; intros l Hl c; cbn [serve]; [apply Hl |].
  destruct (listening l) eqn:E; [| intros _; exact E].
  apply IH. apply handle_request_resolved_closed.
  intros c' Hc'. specialize (Hl c' Hc'). discriminate Hl.
Qed.

Lemma getAuthToken_done_closes reqs code :
  getAuthToken reqs = Done code → listening (serve reqs listen) = false.
Proof.
  unfold getAuthToken. intros H.
  destruct (uncaught (serve reqs listen)); [discriminate |].
  apply (serve_resolved_closed reqs listen) with (c := code); [discriminate |].
  destruct (settled (serve reqs listen)); cbn [await] in H; congruence.
Qed.

Lemma getAuthToken_done_alive reqs code :
  getAuthToken reqs = Done code → uncaught (serve reqs listen) = false.
Proof.
  unfold getAuthToken. destruct (uncaught (serve reqs listen)); [discriminate | reflexivity].
Qed.

(** C10, as stated, fails: a request whose [code] and [error] parameters
    are both non-null, the code being empty, rejects the promise with the
    error instead of resolving it with the code. *)
Lemma callback_empty_code_rejects :
  matches_callback empty_code_request = true
  ∧ (∃ ps, searchParams empty_code_request = Some ps
           ∧ searchParams_get "code" ps = Some ""
           ∧ searchParams_get "error" ps = Some "access_denied")
  ∧ getAuthToken [empty_code_request] = Threw "access_denied"
  ∧ getAuthToken [empty_code_request] ≠ Done "".
Proof.
  split; [reflexivity |]. split.
  - eexists. split; [reflexivity |]. split; reflexivity.
  - split; [reflexivity | discriminate].
Qed.

(** What the handler does when [code] and [error] are both non-empty: the
    promise is resolved with the code and the server closed, then the
    response is ended a second time; the unhandled 'error' event ends the
    process, and the flow never gets to the token exchange. *)
Lemma callback_code_and_error_ends_process (req : request)
      (ps : list (string * string)) (code error : string) :
  matches_callback req = true →
  searchParams req = Some ps →
  searchParams_get "code" ps = Some code →
  code ≠ "" →
  searchParams_get "error" ps = Some error →
  error ≠ "" →
  serve [req] listen
  = mkListener (Resolved code) false
      ["Authentication successful! Please return to the console."] true
  ∧ getAuthToken [req] = Threw write_after_end.
Proof.
  intros Hm Hps Hcode Hc Herr He.
  assert (E : serve [req] listen
              = mkListener (Resolved code) false
                  ["Authentication successful! Please return to the console."] true).
  { cbn [serve listen listening]. unfold handle_request.
    unfold matches_callback in Hm. rewrite Hm, Hps, Hcode, Herr. cbn [truthy_str].
    destruct (String.eqb_spec code ""); [contradiction |].
    destruct (String.eqb_spec error ""); [contradiction |]. reflexivity. }
  split; [exact E |]. unfold getAuthToken. rewrite E. reflexivity.
Qed.

(** C10, amended: when the first request on the callback path carries both
    a [code] and an [error] parameter, one of them empty, the branch of the
    non-empty one takes effect.  With a non-empty code and an empty error
    the promise resolves with the code, which the flow goes on with; with
    an empty code and a non-empty error the promise rejects with the error.
    Either way one reply is sent, the server is closed, and no later
    request alters the outcome. *)
Theorem callback_non_empty_parameter_wins (pre post : list request) (req : request)
        (ps : list (string * string)) (code error : string) :
  forallb (fun r => negb (matches_callback r)) pre = true →
  matches_callback req = true →
  searchParams req = Some ps →
  searchParams_get "code" ps = Some code →
  searchParams_get "error" ps = Some error →
  (code ≠ "" → error = "" →
   getAuthToken (pre ++ req :: post) = Done code
   ∧ serve (pre ++ req :: post) listen
     = mkListener (Resolved code) false
         ["Authentication successful! Please return to the console."] false)
  ∧ (code = "" → error ≠ "" →
     getAuthToken (pre ++ req :: post) = Threw error
     ∧ serve (pre ++ req :: post) listen
       = mkListener (Rejected error) false
           ["Authentication canceled. Please return to the console."] false).
Proof.
  intros Hpre Hm Hps Hcode Herr.
  assert (E : serve (pre ++ req :: post) listen
              = serve post (handle_request req listen)).
  { rewrite (serve_ignores_other_paths _ _ _ Hpre). reflexivity. }
  unfold matches_callback in Hm.
  split.
  - intros Hc He. subst error.
    assert (E' : serve (pre ++ req :: post) listen
                 = mkListener (Resolved code) false
                     ["Authentication successful! Please return to the console."] false).
    { rewrite E. unfold handle_request. rewrite Hm, Hps, Hcode, Herr. cbn [truthy_str].
      destruct (String.eqb_spec code ""); [contradiction |].
      cbn [negb String.eqb]. rewrite serve_closed by reflexivity. reflexivity. }
    split; [| exact E']. unfold getAuthToken. rewrite E'. reflexivity.
  - intros Hc He. subst code.
    assert (E' : serve (pre ++ req :: post) listen
                 = mkListener (Rejected error) false
                     ["Authentication canceled. Please return to the console."] false).
    { rewrite E. unfold handle_request. rewrite Hm, Hps, Hcode, Herr. cbn [truthy_str].
      destruct (String.eqb_spec error ""); [contradiction |].
      cbn [negb String.eqb]. rewrite serve_closed by reflexivity. reflexivity. }
    split; [| exact E']. unfold getAuthToken. rewrite E'. reflexivity.
Qed.

Lemma callback_non_empty_parameter_wins_witness :
  getAuthToken
    ([mkRequest "/favicon.ico" (Some [])]
       ++ mkRequest "/oauth2callback?code=4/0Ab&error="
                    (Some [("code", "4/0Ab"); ("error", "")])
       :: [empty_code_request])
  = Done "4/0Ab"
  ∧ getAuthToken
      ([mkRequest "/favicon.ico" (Some [])]
         ++ empty_code_request :: [callback_with_code "4/0Ab"])
    = Threw "access_denied".
Proof.
  split.
  - apply (proj1 (callback_non_empty_parameter_wins
                    [mkRequest "/favicon.ico" (Some [])] [empty_code_request]
                    (mkRequest "/oauth2callback?code=4/0Ab&error="
                               (Some [("code", "4/0Ab"); ("error", "")]))
                    [("code", "4/0Ab"); ("error", "")] "4/0Ab" ""
                    eq_refl eq_refl eq_refl eq_refl eq_refl)
             ltac:(discriminate) eq_refl).
  - apply (proj2 (callback_non_empty_parameter_wins
                    [mkRequest "/favicon.ico" (Some [])] [callback_with_code "4/0Ab"]
                    empty_code_request
                    [("code", ""); ("error", "access_denied")] "" "access_denied"
                    eq_refl eq_refl eq_refl eq_refl eq_refl)
             eq_refl ltac:(discriminate)).
Defined.

(** ** Scope validation *)

Lemma split_nonempty sep s : (1 ≤ length (split sep s))%nat.
Proof.
  induction s as [| c s IH]; cbn [split]; [cbn; lia |].
  destruct (Ascii.eqb c sep); [cbn; lia |].
  destruct (split sep s); cbn in *; lia.
Qed.

Lemma partial_grant_is_short (scopes : list string) :
  distinct scopes = true →
  among_requested scopes = true →
  grants_both scopes = false →
  (length scopes < 2)%nat.
Proof.
  destruct scopes as [| a [| b rest]]; cbn [length]; try lia.
  intros Hd Hs Hg. exfalso.
  cbn [distinct existsb] in Hd. cbn [among_requested forallb existsb requested_scopes] in Hs.
  unfold grants_both in Hg. cbn [forallb existsb requested_scopes] in Hg.
  rewrite !(String.eqb_sym _ a), !(String.eqb_sym _ b) in Hg.
  revert Hd Hs Hg.
  destruct (String.eqb_spec a b) as [Hab | Hab];
    destruct (String.eqb_spec a "https://www.googleapis.com/auth/youtube.upload") as [Ha1 | Ha1];
    destruct (String.eqb_spec b "https://www.googleapis.com/auth/youtube.upload") as [Hb1 | Hb1];
    destruct (String.eqb_spec a "https://www.googleapis.com/auth/youtube.force-ssl") as [Ha2 | Ha2];
    destruct (String.eqb_spec b "https://www.googleapis.com/auth/youtube.force-ssl") as [Hb2 | Hb2];
    cbn; intros Hd Hs Hg; try discriminate; congruence.
Qed.

Lemma granting_both_is_long (scopes : list string) :
  grants_both scopes = true → (2 ≤ length scopes)%nat.
Proof.
  destruct scopes as [| a [| b rest]]; cbn [length]; try lia.
  - discriminate.
  - unfold grants_both. cbn [forallb existsb requested_scopes].
    rewrite !orb_false_r, andb_true_r. intros H. apply andb_prop in H as [H1 H2].
    apply String.eqb_eq in H1, H2. congruence.
Qed.

(** The test of line 317 goes by the number of entries. *)
Lemma scope_check_by_count (r : consent_round) (rest : list consent_round)
      (code scope : string) (tk : tokens) :
  getAuthToken (callback_requests r) = Done code →
  token_exchange r = Some tk →
  tokeninfo r = TokenInfoScope scope →
  let pre := [EvGenerateAuthUrl requested_scopes; EvOpenBrowser;
              EvGetToken code; EvTokenInfo (access_token tk)] in
  ((length (split " " scope) < 2)%nat →
   doOAuth (r :: rest)
   = (pre ++ EvConsentToBothMessage :: EvPrompt :: fst (doOAuth rest),
      snd (doOAuth rest)))
  ∧ ((2 ≤ length (split " " scope))%nat → doOAuth (r :: rest) = (pre, Done tk)).
Proof.
  intros Hcb Hex Hti pre. unfold doOAuth. split; intros Hlen; cbn [doOAuth_on];
    rewrite (getAuthToken_done_alive _ _ Hcb), (getAuthToken_done_closes _ _ Hcb),
      Hcb, Hex, Hti.
  - apply Nat.ltb_lt in Hlen. rewrite Hlen.
    destruct (doOAuth_on false rest) as [t o]. reflexivity.
  - apply Nat.ltb_ge in Hlen. rewrite Hlen.
    destruct (doOAuth_on false rest) as [t o]. reflexivity.
Qed.

(** C3: in a pass that reaches scope validation, the flow restarts
    whenever the granted scopes, a duplicate-free selection from the two
    scopes the consent URL requests, do not hold both of them, and likewise
    when nothing at all was granted: the 'consent to both' message, the
    prompt, then one more full consent pass, and no tokens come out without
    the user having been prompted again.  With both scopes granted the
    tokens of the pass are returned at once. *)
Theorem scope_validation_restarts (r : consent_round) (rest : list consent_round)
        (code scope : string) (tk : tokens) :
  getAuthToken (callback_requests r) = Done code →
  token_exchange r = Some tk →
  tokeninfo r = TokenInfoScope scope →
  let scopes := split " " scope in
  let pre := [EvGenerateAuthUrl requested_scopes; EvOpenBrowser;
              EvGetToken code; EvTokenInfo (access_token tk)] in
  let restarted :=
    doOAuth (r :: rest)
    = (pre ++ EvConsentToBothMessage :: EvPrompt :: fst (doOAuth rest),
       snd (doOAuth rest))
    ∧ reprompted (fst (doOAuth (r :: rest))) = true in
  (distinct scopes = true → among_requested scopes = true →
   grants_both scopes = false → restarted)
  ∧ (scope = "" → restarted)
  ∧ (grants_both scopes = true → doOAuth (r :: rest) = (pre, Done tk)).
Proof.
  intros Hcb Hex Hti scopes pre restarted.
  destruct (scope_check_by_count r rest code scope tk Hcb Hex Hti) as [Hshort Hlong].
  assert (Hrestart : (length scopes < 2)%nat → restarted).
  { intros Hlen. pose proof (Hshort Hlen) as E.
    split; [exact E |]. rewrite E. reflexivity. }
  split; [| split].
  - intros Hd Hs Hg. apply Hrestart. now apply partial_grant_is_short.
  - intros ->. apply Hrestart. cbn. lia.
  - intros Hg. apply Hlong. now apply granting_both_is_long.
Qed.

Lemma scope_validation_restarts_witness :
  (doOAuth (upload_only_round :: consent first_run)
   = ([EvGenerateAuthUrl requested_scopes; EvOpenBrowser;
       EvGetToken "4/0Ab"; EvTokenInfo (Some "ya29.a0")]
        ++ EvConsentToBothMessage :: EvPrompt :: fst (doOAuth (consent first_run)),
      snd (doOAuth (consent first_run)))
   ∧ reprompted (fst (doOAuth (upload_only_round :: consent first_run))) = true)
  ∧ doOAuth (consent first_run)
    = ([EvGenerateAuthUrl requested_scopes; EvOpenBrowser;
        EvGetToken "4/0Ab"; EvTokenInfo (Some "ya29.a0")],
       Done (mkTokens (Some "ya29.a0") (Some "1//0g"))).
Proof.
  split.
  - apply (proj1 (scope_validation_restarts upload_only_round (consent first_run)
                    "4/0Ab" "https://www.googleapis.com/auth/youtube.upload"
                    (mkTokens (Some "ya29.a0") (Some "1//0g"))
                    eq_refl eq_refl eq_refl)
             eq_refl eq_refl eq_refl).
  - apply (proj2 (proj2 (scope_validation_restarts
                    (mkRound [callback_with_code "4/0Ab"]
                       (Some (mkTokens (Some "ya29.a0") (Some "1//0g")))
                       (TokenInfoScope
                          "https://www.googleapis.com/auth/youtube.upload https://www.googleapis.com/auth/youtube.force-ssl"))
                    [] "4/0Ab"
                    "https://www.googleapis.com/auth/youtube.upload https://www.googleapis.com/auth/youtube.force-ssl"
                    (mkTokens (Some "ya29.a0") (Some "1//0g"))
                    eq_refl eq_refl eq_refl))
             eq_refl).
Defined.

(** ** The video-status loop *)

Lemma checkVideoProcessing_waits id rs :
  ∀ args,
    waits (fst (checkVideoProcessing id args rs))
    = param 0 args :: repeat (JStr id) (pending_prefix rs).
Proof.
  induction rs as [| r rest IH]; intros args; [reflexivity |].
  cbn [checkVideoProcessing pending_prefix]. fold (succeeded r).
  destruct (succeeded r); [reflexivity |].
  specialize (IH [JStr id; js_or (timeLeftMs_of r) (param 0 args)]).
  destruct (checkVideoProcessing id _ rest) as [t o].
  cbn [fst waits repeat] in *. now rewrite IH.
Qed.

(** C4: the wait before every query after the first is the video id, not
    the server's estimate and not the previous interval: the recursive call
    passes [(id, newTimeLeftMs)] to a function whose only parameter is
    [timeLeftMs].  With the id "dQw4w9WgXcQ" and a first answer estimating
    7000 ms, the second wait is the string "dQw4w9WgXcQ" where the
    specification has 7000. *)
Theorem video_poll_waits_on_the_id :
  (∀ id interval rs,
      waits (fst (checkVideoProcessing id [interval] rs))
      = interval :: repeat (JStr id) (pending_prefix rs))
  ∧ waits (fst (checkVideoProcessing "dQw4w9WgXcQ" [JNum 3000]
                  [answer "processing" (Some 7000); answer "succeeded" None]))
    = [JNum 3000; JStr "dQw4w9WgXcQ"]
  ∧ claimed_waits (JNum 3000)
      [answer "processing" (Some 7000); answer "succeeded" None]
    = [JNum 3000; JNum 7000].
Proof.
  split; [intros id interval rs; apply checkVideoProcessing_waits |].
  split; reflexivity.
Qed.

Lemma checkVideoProcessing_pending id rs :
  ∀ args,
    forallb still_pending rs = true →
    snd (checkVideoProcessing id args rs) = Blocked
    ∧ queries (fst (checkVideoProcessing id args rs)) = S (length rs).
Proof.
  induction rs as [| r rest IH]; intros args H; [split; reflexivity |].
  cbn [forallb] in H. apply andb_prop in H as [Hr Hrest].
  unfold still_pending in Hr. apply negb_true_iff in Hr.
  cbn [checkVideoProcessing]. fold (succeeded r). rewrite Hr.
  specialize (IH [JStr id; js_or (timeLeftMs_of r) (param 0 args)] Hrest).
  destruct (checkVideoProcessing id _ rest) as [t o].
  cbn [fst snd queries length] in *. destruct IH as [-> ->]. split; reflexivity.
Qed.

Lemma checkVideoProcessing_done id pre r post :
  ∀ args,
    forallb still_pending pre = true →
    succeeded r = true →
    snd (checkVideoProcessing id args (pre ++ r :: post)) = Done tt
    ∧ queries (fst (checkVideoProcessing id args (pre ++ r :: post))) = S (length pre).
Proof.
  induction pre as [| p pre IH]; intros args H Hr.
  - cbn [app checkVideoProcessing]. fold (succeeded r). rewrite Hr. split; reflexivity.
  - cbn [forallb] in H. apply andb_prop in H as [Hp Hpre].
    unfold still_pending in Hp. apply negb_true_iff in Hp.
    cbn [app checkVideoProcessing]. fold (succeeded p). rewrite Hp.
    specialize (IH [JStr id; js_or (timeLeftMs_of p) (param 0 args)] Hpre Hr).
    destruct (checkVideoProcessing id _ (pre ++ r :: post)) as [t o].
    cbn [fst snd queries length] in *. destruct IH as [-> ->]. split; reflexivity.
Qed.

(** C6: the video-status loop returns on the first answer that reports
    "succeeded" and on no other: as long as no answer has reported it, the
    loop has not returned, however many answers there were, and has issued
    one query more than it got answers; the first answer reporting it ends
    the loop, and what would have followed is never asked for. *)
Theorem video_poll_ends_only_on_succeeded (id : string) (args : list jsval) :
  (∀ rs, forallb still_pending rs = true →
         snd (checkVideoProcessing id args rs) = Blocked
         ∧ queries (fst (checkVideoProcessing id args rs)) = S (length rs))
  ∧ (∀ pre r post,
        forallb still_pending pre = true →
        succeeded r = true →
        snd (checkVideoProcessing id args (pre ++ r :: post)) = Done tt
        ∧ queries (fst (checkVideoProcessing id args (pre ++ r :: post)))
          = S (length pre)).
Proof.
  split.
  - intros rs. apply checkVideoProcessing_pending.
  - intros pre r post. apply checkVideoProcessing_done.
Qed.

Lemma video_poll_ends_only_on_succeeded_witness :
  (snd (checkVideoProcessing "dQw4w9WgXcQ" [JNum 3000]
          [answer "processing" None; answer "failed" None; answer "terminated" None])
   = Blocked
   ∧ queries (fst (checkVideoProcessing "dQw4w9WgXcQ" [JNum 3000]
          [answer "processing" None; answer "failed" None; answer "terminated" None]))
     = 4%nat)
  ∧ (snd (checkVideoProcessing "dQw4w9WgXcQ" [JNum 3000]
          ([answer "processing" (Some 7000); mkResponse []]
             ++ answer "succeeded" None :: [answer "processing" None]))
     = Done tt
     ∧ queries (fst (checkVideoProcessing "dQw4w9WgXcQ" [JNum 3000]
          ([answer "processing" (Some 7000); mkResponse []]
             ++ answer "succeeded" None :: [answer "processing" None])))
       = 3%nat).
Proof.
  split.
  - apply (proj1 (video_poll_ends_only_on_succeeded "dQw4w9WgXcQ" [JNum 3000])
             [answer "processing" None; answer "failed" None; answer "terminated" None]).
    reflexivity.
  - apply (proj2 (video_poll_ends_only_on_succeeded "dQw4w9WgXcQ" [JNum 3000])
             [answer "processing" (Some 7000); mkResponse []]
             (answer "succeeded" None) [answer "processing" None]);
      reflexivity.
Defined.

(** ** The thumbnail loop *)

Lemma checkThumbnailProcessing_retry id r rest :
  retries r = true →
  snd (checkThumbnailProcessing id (r :: rest)) = snd (checkThumbnailProcessing id rest)
  ∧ skeleton (fst (checkThumbnailProcessing id (r :: rest)))
    = passes id 1 ++ skeleton (fst (checkThumbnailProcessing id rest))
  ∧ fetches (fst (checkThumbnailProcessing id (r :: rest)))
    = S (fetches (fst (checkThumbnailProcessing id rest))).
Proof.
  unfold retries. intros H. apply andb_prop in H as [Hurl Hf].
  cbn [checkThumbnailProcessing]. rewrite Hurl.
  destruct (thumb_fetch r) as [code |].
  - rewrite Hf. repeat split; reflexivity.
  - repeat split; reflexivity.
Qed.

Lemma checkThumbnailProcessing_stop id r rest :
  retries r = false →
  checkThumbnailProcessing id (r :: rest)
  = (passes id 1
       ++ (if has_thumbnail r
           then [EvFetch (default "" (thumbnailURL_of (thumb_details r)))] else []),
     Done tt).
Proof.
  unfold retries, has_thumbnail. intros H.
  cbn [checkThumbnailProcessing].
  destruct (truthy_str (thumbnailURL_of (thumb_details r))); [| reflexivity].
  cbn [andb] in H. destruct (thumb_fetch r) as [code |]; [| discriminate].
  rewrite H. reflexivity.
Qed.

Lemma checkThumbnailProcessing_runs (id : string) :
  (∀ pre r post,
      forallb retries pre = true →
      retries r = false →
      snd (checkThumbnailProcessing id (pre ++ r :: post)) = Done tt
      ∧ skeleton (fst (checkThumbnailProcessing id (pre ++ r :: post)))
        = passes id (S (length pre))
      ∧ fetches (fst (checkThumbnailProcessing id (pre ++ r :: post)))
        = (length pre + (if has_thumbnail r then 1 else 0))%nat)
  ∧ (∀ rounds,
        forallb retries rounds = true →
        snd (checkThumbnailProcessing id rounds) = Blocked
        ∧ skeleton (fst (checkThumbnailProcessing id rounds))
          = passes id (S (length rounds))
        ∧ fetches (fst (checkThumbnailProcessing id rounds)) = length rounds).
Proof.
  split.
  - intros pre r post Hpre Hr. induction pre as [| p pre IH].
    + cbn [app length]. rewrite (checkThumbnailProcessing_stop _ _ _ Hr).
      cbn [fst snd]. destruct (has_thumbnail r); repeat split; reflexivity.
    + cbn [forallb] in Hpre. apply andb_prop in Hpre as [Hp Hpre].
      destruct (IH Hpre) as (Ho & Hs & Hf).
      destruct (checkThumbnailProcessing_retry id p (pre ++ r :: post) Hp)
        as (Ho' & Hs' & Hf').
      change ((p :: pre) ++ r :: post) with (p :: (pre ++ r :: post)).
      rewrite Ho', Hs', Hf', Ho, Hs, Hf. repeat split; reflexivity.
  - intros rounds H. induction rounds as [| p rounds IH]; [repeat split; reflexivity |].
    cbn [forallb] in H. apply andb_prop in H as [Hp Hrest].
    destruct (IH Hrest) as (Ho & Hs & Hf).
    destruct (checkThumbnailProcessing_retry id p rounds Hp) as (Ho' & Hs' & Hf').
    rewrite Ho', Hs', Hf', Ho, Hs, Hf. repeat split; reflexivity.
Qed.

Lemma thumbnail_url_present_truthy (r : thumb_round) :
  has_thumbnail r = thumbnail_url_present r.
Proof.
  unfold has_thumbnail, thumbnail_url_present.
  destruct (thumbnailURL_of (thumb_details r)) as [[| c u] |]; reflexivity.
Qed.

Lemma failing_pass_retries (r : thumb_round) :
  failing_pass r = true → retries r = true.
Proof.
  unfold failing_pass, retries, get_failed. fold (has_thumbnail r).
  rewrite thumbnail_url_present_truthy. intros H. apply andb_prop in H as [-> H].
  destruct (thumb_fetch r) as [code |]; [| reflexivity].
  cbn [andb]. unfold ok. apply negb_true_iff. apply andb_false_iff.
  apply orb_prop in H as [H | H]; [left | right]; lia.
Qed.

Lemma answered_2xx_ends (r : thumb_round) :
  get_answered_2xx r = true → retries r = false.
Proof.
  unfold get_answered_2xx, retries. destruct (thumb_fetch r) as [code |]; [| discriminate].
  intros H. apply andb_prop in H as [H1 H2]. unfold ok.
  replace (200 <=? code) with true by lia. replace (code <=? 299) with true by lia.
  apply andb_false_r.
Qed.

Lemma no_thumbnail_ends (r : thumb_round) :
  thumbnail_url_present r = false → retries r = false.
Proof.
  unfold retries. fold (has_thumbnail r). rewrite thumbnail_url_present_truthy.
  now intros ->.
Qed.

Lemma failing_passes_retry (rounds : list thumb_round) :
  forallb failing_pass rounds = true → forallb retries rounds = true.
Proof.
  induction rounds as [| r rounds IH]; [reflexivity |].
  cbn [forallb]. intros H. apply andb_prop in H as [Hr Hrest].
  now rewrite (failing_pass_retries r Hr), (IH Hrest).
Qed.

(** C7: every pass of the thumbnail loop sets a 5000 ms timer and then
    queries the status.  While each pass finds the thumbnail URL and the GET
    for it fails (a status outside 200-299, or a transport error), the loop
    goes on, one GET per pass.  The first pass whose GET is answered with a
    status from 200 to 299 ends the loop, and so does, without any GET, the
    first pass whose status answer carries no thumbnail URL (an empty URL
    counts as none); no further pass follows. *)
Theorem thumbnail_poll (id : string) :
  (∀ pre r post,
      forallb failing_pass pre = true →
      (thumbnail_url_present r = true → get_answered_2xx r = true →
       snd (checkThumbnailProcessing id (pre ++ r :: post)) = Done tt
       ∧ skeleton (fst (checkThumbnailProcessing id (pre ++ r :: post)))
         = passes id (S (length pre))
       ∧ fetches (fst (checkThumbnailProcessing id (pre ++ r :: post)))
         = S (length pre))
      ∧ (thumbnail_url_present r = false →
         snd (checkThumbnailProcessing id (pre ++ r :: post)) = Done tt
         ∧ skeleton (fst (checkThumbnailProcessing id (pre ++ r :: post)))
           = passes id (S (length pre))
         ∧ fetches (fst (checkThumbnailProcessing id (pre ++ r :: post)))
           = length pre))
  ∧ (∀ rounds,
        forallb failing_pass rounds = true →
        snd (checkThumbnailProcessing id rounds) = Blocked
        ∧ skeleton (fst (checkThumbnailProcessing id rounds))
          = passes id (S (length rounds))
        ∧ fetches (fst (checkThumbnailProcessing id rounds)) = length rounds).
Proof.
  split.
  - intros pre r post Hpre. apply failing_passes_retry in Hpre. split.
    + intros Hurl H2xx.
      destruct (proj1 (checkThumbnailProcessing_runs id) pre r post Hpre
                  (answered_2xx_ends r H2xx)) as (Ho & Hs & Hf).
      rewrite thumbnail_url_present_truthy, Hurl in Hf.
      repeat split; [exact Ho | exact Hs | lia].
    + intros Hurl.
      destruct (proj1 (checkThumbnailProcessing_runs id) pre r post Hpre
                  (no_thumbnail_ends r Hurl)) as (Ho & Hs & Hf).
      rewrite thumbnail_url_present_truthy, Hurl in Hf.
      repeat split; [exact Ho | exact Hs | lia].
  - intros rounds H. apply failing_passes_retry in H.
    exact (proj2 (checkThumbnailProcessing_runs id) rounds H).
Qed.

Lemma thumbnail_poll_witness :
  snd (checkThumbnailProcessing "dQw4w9WgXcQ"
         ([mkThumbRound (with_thumbnail "https://i.ytimg.com/vi/dQw4w9WgXcQ/hqdefault.jpg")
                        (FetchResponse 404);
           mkThumbRound (with_thumbnail "https://i.ytimg.com/vi/dQw4w9WgXcQ/hqdefault.jpg")
                        FetchThrows]
            ++ mkThumbRound (with_thumbnail "https://i.ytimg.com/vi/dQw4w9WgXcQ/hqdefault.jpg")
                            (FetchResponse 200)
            :: [mkThumbRound (with_thumbnail "https://i.ytimg.com/vi/dQw4w9WgXcQ/hqdefault.jpg")
                             (FetchResponse 503)]))
  = Done tt
  ∧ fetches (fst (checkThumbnailProcessing "dQw4w9WgXcQ"
         ([mkThumbRound (with_thumbnail "https://i.ytimg.com/vi/dQw4w9WgXcQ/hqdefault.jpg")
                        (FetchResponse 301)]
            ++ mkThumbRound (mkResponse [mkVideo None None]) (FetchResponse 200) :: [])))
    = 1%nat
  ∧ snd (checkThumbnailProcessing "dQw4w9WgXcQ"
         [mkThumbRound (with_thumbnail "https://i.ytimg.com/vi/dQw4w9WgXcQ/hqdefault.jpg")
                       (FetchResponse 199)])
    = Blocked.
Proof.
  split; [| split].
  - apply (proj1 (proj1 (thumbnail_poll "dQw4w9WgXcQ")
             [mkThumbRound (with_thumbnail "https://i.ytimg.com/vi/dQw4w9WgXcQ/hqdefault.jpg")
                           (FetchResponse 404);
              mkThumbRound (with_thumbnail "https://i.ytimg.com/vi/dQw4w9WgXcQ/hqdefault.jpg")
                           FetchThrows]
             (mkThumbRound (with_thumbnail "https://i.ytimg.com/vi/dQw4w9WgXcQ/hqdefault.jpg")
                           (FetchResponse 200))
             [mkThumbRound (with_thumbnail "https://i.ytimg.com/vi/dQw4w9WgXcQ/hqdefault.jpg")
                           (FetchResponse 503)]
             eq_refl) eq_refl eq_refl).
  - apply (proj2 (proj1 (thumbnail_poll "dQw4w9WgXcQ")
             [mkThumbRound (with_thumbnail "https://i.ytimg.com/vi/dQw4w9WgXcQ/hqdefault.jpg")
                           (FetchResponse 301)]
             (mkThumbRound (mkResponse [mkVideo None None]) (FetchResponse 200)) []
             eq_refl) eq_refl).
  - apply (proj2 (thumbnail_poll "dQw4w9WgXcQ")
             [mkThumbRound (with_thumbnail "https://i.ytimg.com/vi/dQw4w9WgXcQ/hqdefault.jpg")
                           (FetchResponse 199)]).
    reflexivity.
Defined.

(** ** Metadata merge *)

Lemma spread2_lookup (a b : option (gmap string jsval)) (k : string) :
  spread2 a b !! k
  = match spread b !! k with
    | Some v => Some v
    | None => spread a !! k
    end.
Proof.
  unfold spread2. rewrite lookup_union.
  destruct (spread b !! k), (spread a !! k); reflexivity.
Qed.

Lemma spread2_again (a b : option (gmap string jsval)) :
  spread2 (Some (spread2 a b)) b = spread2 a b.
Proof.
  unfold spread2.
  change (spread (Some (spread b ∪ spread a))) with (spread b ∪ spread a).
  apply map_eq. intros k. rewrite !lookup_union.
  destruct (spread b !! k), (spread a !! k); reflexivity.
Qed.

(** C8: [createDetailsObject] merges section by section, one level deep:
    under every key of "snippet" and of "status" the caller's value stands
    if the caller gave one, and the default otherwise; merging the same
    caller document over the result changes nothing; {snippet:{title:"A"}}
    over {snippet:{title:"default",description:"d"}} gives the snippet
    {title:"A",description:"d"} (beside it the status section, here with
    no field); and a nested object is replaced as a whole, not merged. *)
Theorem createDetailsObject_merge :
  (∀ defaults userDefined k,
      snippet_of (createDetailsObject defaults userDefined) !! k
      = match snippet_of userDefined !! k with
        | Some v => Some v
        | None => snippet_of defaults !! k
        end
      ∧ status_of_details (createDetailsObject defaults userDefined) !! k
        = match status_of_details userDefined !! k with
          | Some v => Some v
          | None => status_of_details defaults !! k
          end)
  ∧ (∀ defaults userDefined,
        createDetailsObject (createDetailsObject defaults userDefined) userDefined
        = createDetailsObject defaults userDefined)
  ∧ createDetailsObject
      (mkDetails (Some (<["title" := JStr "default"]> (<["description" := JStr "d"]> ∅))) None)
      (mkDetails (Some (<["title" := JStr "A"]> ∅)) None)
    = mkDetails (Some (<["title" := JStr "A"]> (<["description" := JStr "d"]> ∅)))
                (Some ∅)
  ∧ snippet_of
      (createDetailsObject
         (mkDetails
            (Some (<["localized" :=
                      JObj [("title", JStr "default"); ("description", JStr "d")]]> ∅)) None)
         (mkDetails (Some (<["localized" := JObj [("title", JStr "A")]]> ∅)) None))
    = <["localized" := JObj [("title", JStr "A")]]> ∅.
Proof.
  split; [| split; [| split]].
  - intros d u k. unfold snippet_of, status_of_details, createDetailsObject.
    cbn [snippet status]. change (spread (Some ?m)) with m.
    split; apply spread2_lookup.
  - intros d u. unfold createDetailsObject. cbn [snippet status].
    now rewrite !spread2_again.
  - reflexivity.
  - reflexivity.
Qed.

(** ** Upload progress *)

Section ProgressFacts.
Local Open Scope float_scope.

(** On binary64, a finite non-zero value divided by itself is exactly 1. *)
Lemma SFdiv_self (s : bool) (m : positive) (e : Z) :
  SF64div (S754_finite s m e) (S754_finite s m e) = Prim2SF 1.
Proof.
  unfold SF64div, SFdiv, SFdiv_core_binary.
  replace (Zdigits2 (Z.pos m) + e - (Zdigits2 (Z.pos m) + e))%Z with 0%Z by lia.
  replace (e - e)%Z with 0%Z by lia.
  change (Z.min (fexp prec emax 0) 0) with (-53)%Z.
  change (0 - -53)%Z with 53%Z. cbv iota.
  rewrite Z.shiftl_mul_pow2 by lia.
  assert (Hd : Z.div_eucl (Z.pos m * 2 ^ 53) (Z.pos m) = ((2 ^ 53)%Z, 0%Z)).
  { pose proof (Z.div_mul (2 ^ 53) (Z.pos m)) as H1.
    pose proof (Z.mod_mul (2 ^ 53) (Z.pos m)) as H2.
    unfold Z.div, Z.modulo in H1, H2.
    rewrite (Z.mul_comm (2 ^ 53)) in H1, H2.
    destruct (Z.div_eucl (Z.pos m * 2 ^ 53) (Z.pos m)) as [q r].
    rewrite H1, H2 by lia. reflexivity. }
  rewrite Hd.
  assert (Hl : new_location (Z.pos m) 0 = SpecFloat.loc_Exact).
  { unfold new_location, new_location_even, new_location_odd.
    destruct (Z.even (Z.pos m)); reflexivity. }
  rewrite Hl. destruct s; vm_compute; reflexivity.
Qed.

Lemma div_self (x : float) : Progress.finite_nonzero x = true → x / x = 1.
Proof.
  unfold Progress.finite_nonzero. intros H.
  apply Prim2SF_inj. rewrite div_spec.
  destruct (Prim2SF x) as [| | | s m e]; try discriminate.
  apply SFdiv_self.
Qed.

(** C5, as stated, fails: for a 0-byte file the quotient is 0/0; nothing
    guards it, and the value computed for the progress line is [NaN], which
    is not the number 100. *)
Lemma progress_of_empty_file_is_nan :
  PrimFloat.is_nan (Progress.progress 0 0) = true
  ∧ (Progress.progress 0 0 =? 100) = false
  ∧ Progress.progress 0 0 ≠ 100.
Proof.
  split; [vm_compute; reflexivity |]. split; [vm_compute; reflexivity |].
  intros H. assert (E : PrimFloat.is_nan (Progress.progress 0 0) = PrimFloat.is_nan 100)
    by (rewrite H; reflexivity).
  vm_compute in E. discriminate E.
Qed.

(** C5, amended: the progress computation has no guard against a zero file
    size.  For every chunk event whose [bytesRead] equals a non-zero file
    size the reported progress is the number 100; for a 0-byte file it is
    [NaN]. *)
Theorem progress_at_end_of_transmission (fileSize : float) :
  Progress.finite_nonzero fileSize = true →
  Progress.progress fileSize fileSize = 100
  ∧ PrimFloat.is_nan (Progress.progress 0 0) = true.
Proof.
  intros H. split.
  - unfold Progress.progress. rewrite (div_self _ H). vm_compute. reflexivity.
  - vm_compute. reflexivity.
Qed.

Lemma progress_at_end_of_transmission_witness :
  Progress.progress 1048576 1048576 = 100
  ∧ PrimFloat.is_nan (Progress.progress 0 0) = true.
Proof. apply (progress_at_end_of_transmission 1048576). reflexivity. Defined.

End ProgressFacts.

(** * Further properties of the code *)

(** ** The path filter of the prompt *)

Lemma append_cons (c : ascii) (s t : string) :
  String.append (String c s) t = String c (String.append s t).
Proof. reflexivity. Qed.

Lemma append_nil (t : string) : String.append EmptyString t = t.
Proof. reflexivity. Qed.

Lemma substring_tail_char (body : string) (q : ascii) :
  String.substring (String.length body) 1 (String.append body (String q EmptyString))
  = String q EmptyString.
Proof.
  induction body as [| c body IH]; [reflexivity |].
  rewrite append_cons. exact IH.
Qed.

Lemma substring_front (body : string) (q : ascii) :
  String.substring 0 (String.length body) (String.append body (String q EmptyString))
  = body.
Proof.
  induction body as [| c body IH]; [reflexivity |].
  rewrite append_cons. cbn [String.length String.substring]. now rewrite IH.
Qed.

Lemma length_append_char (body : string) (q : ascii) :
  String.length (String.append body (String q EmptyString)) = S (String.length body).
Proof.
  induction body as [| c body IH]; [reflexivity |].
  rewrite append_cons. cbn [String.length]. now rewrite IH.
Qed.

Lemma startsWith_quote (q : ascii) (rest : string) :
  is_quote q = true →
  startsWith (String q rest) squote || startsWith (String q rest) dquote = true.
Proof.
  unfold is_quote. intros H. apply orb_true_iff in H as [H | H];
    apply Ascii.eqb_eq in H; subst q; destruct rest; reflexivity.
Qed.

Lemma endsWith_quote (q1 q : ascii) (body : string) :
  is_quote q = true →
  endsWith (String q1 (String.append body (String q EmptyString))) squote
  || endsWith (String q1 (String.append body (String q EmptyString))) dquote = true.
Proof.
  unfold is_quote, endsWith. intros H.
  cbn [String.length squote dquote]. rewrite length_append_char.
  replace (S (S (String.length body)) - 1)%nat with (S (String.length body)) by lia.
  cbn [String.substring Nat.leb andb]. rewrite substring_tail_char.
  apply orb_true_iff in H as [H | H]; apply Ascii.eqb_eq in H; subst q; reflexivity.
Qed.

(** X1: a value that begins with a quote character and ends with a quote
    character, single or double and not necessarily the same one, loses
    exactly its first and its last character. *)
Theorem videoPath_filter_strips (q1 q2 : ascii) (body : string) :
  is_quote q1 = true →
  is_quote q2 = true →
  videoPath_filter (String q1 (String.append body (String q2 EmptyString))) = body.
Proof.
  intros H1 H2. unfold videoPath_filter.
  rewrite (startsWith_quote q1 _ H1), (endsWith_quote q1 q2 body H2). cbn [andb].
  unfold substring. cbn [String.length]. rewrite length_append_char.
  set (n := String.length body).
  replace (Z.min (Z.max 1 0) (Z.of_nat (S (S n)))) with 1 by lia.
  replace (Z.min (Z.max (Z.of_nat (S (S n)) - 1) 0) (Z.of_nat (S (S n))))
    with (Z.of_nat (S n)) by lia.
  replace (Z.min 1 (Z.of_nat (S n))) with 1 by lia.
  replace (Z.max 1 (Z.of_nat (S n)) - 1) with (Z.of_nat n) by lia.
  rewrite Nat2Z.id. change (Z.to_nat 1) with 1%nat.
  cbn [String.substring]. apply substring_front.
Qed.

Lemma videoPath_filter_strips_witness :
  videoPath_filter
    (String "039"%char (String.append "C:/clips/a b.mp4" (String "034"%char EmptyString)))
  = "C:/clips/a b.mp4".
Proof.
  apply (videoPath_filter_strips "039"%char "034"%char "C:/clips/a b.mp4");
    reflexivity.
Defined.

(** X2: a value of fewer than two characters comes back unchanged, also
    when it is a lone quote character: there the call is
    [substring(1, 0)], whose indices are exchanged. *)
Theorem videoPath_filter_short (val : string) :
  (String.length val < 2)%nat → videoPath_filter val = val.
Proof.
  destruct val as [| c [| d rest]]; cbn [String.length]; intros H; try lia.
  - reflexivity.
  - unfold videoPath_filter.
    destruct ((startsWith _ squote || startsWith _ dquote)
              && (endsWith _ squote || endsWith _ dquote)); reflexivity.
Qed.

Lemma videoPath_filter_short_witness : videoPath_filter squote = squote.
Proof. apply (videoPath_filter_short squote). cbn. lia. Defined.

(** ** Terminal helpers *)

Lemma animateText_nonempty (text : string) (speedMS : Z) :
  ∀ fuel,
    text ≠ EmptyString →
    (String.length text ≤ fuel)%nat →
    snd (animateText fuel text speedMS) = Done tt
    ∧ written (fst (animateText fuel text speedMS)) = String.append text newline
    ∧ timers (fst (animateText fuel text speedMS)) = String.length text.
Proof.
  induction text as [| c rest IH]; intros fuel Hne Hlen; [congruence |].
  destruct fuel as [| fuel]; [cbn in Hlen; lia |].
  cbn [animateText String.length charAt0 slice1].
  destruct rest as [| d rest'].
  - repeat split; reflexivity.
  - change (S (String.length (String d rest')) =? 1)%nat with false.
    cbn [String.length] in Hlen.
    destruct (IH fuel ltac:(discriminate) ltac:(cbn [String.length]; lia))
      as (Ho & Hw & Ht).
    destruct (animateText fuel (String d rest') speedMS) as [t o].
    cbn [fst snd written timers String.append] in *.
    rewrite Ho, Hw, Ht. repeat split; reflexivity.
Qed.

(** X3: for a text that is not empty, [animateText] finishes once as many
    timers have fired as the text has characters; it has then written the
    text followed by a line break, and nothing else. *)
Theorem animateText_prints_text (text : string) (speedMS : Z) (fuel : nat) :
  text ≠ EmptyString →
  (String.length text ≤ fuel)%nat →
  snd (animateText fuel text speedMS) = Done tt
  ∧ written (fst (animateText fuel text speedMS)) = String.append text newline
  ∧ timers (fst (animateText fuel text speedMS)) = String.length text.
Proof. apply animateText_nonempty. Qed.

Lemma animateText_prints_text_witness :
  snd (animateText 9 "consent" 10) = Done tt
  ∧ written (fst (animateText 9 "consent" 10)) = String.append "consent" newline
  ∧ timers (fst (animateText 9 "consent" 10)) = 7%nat.
Proof.
  apply (animateText_prints_text "consent" 10 9); [discriminate | cbn; lia].
Defined.

(** X4: for the empty text [animateText] never finishes: however many
    timers fire, it is still running, has set a timer for each, and has
    written no character. *)
Theorem animateText_empty_text_never_ends (speedMS : Z) (fuel : nat) :
  snd (animateText fuel EmptyString speedMS) = Blocked
  ∧ written (fst (animateText fuel EmptyString speedMS)) = EmptyString
  ∧ timers (fst (animateText fuel EmptyString speedMS)) = fuel.
Proof.
  induction fuel as [| fuel IH]; [repeat split; reflexivity |].
  cbn [animateText String.length Nat.eqb charAt0 slice1].
  destruct (animateText fuel EmptyString speedMS) as [t o].
  cbn [fst snd written timers String.append] in *.
  destruct IH as (-> & -> & ->). repeat split; reflexivity.
Qed.

Lemma loadingText_run_ticks textFrames speedMS k :
  ∀ i rest,
    loadingText_run textFrames speedMS (repeat Tick k ++ rest) (mkSpinner i true)
    = spinner_ticks textFrames speedMS i k
        ++ loadingText_run textFrames speedMS rest (mkSpinner (i + k) true).
Proof.
  unfold spinner_ticks.
  induction k as [| k IH]; intros i rest.
  - cbn. now rewrite Nat.add_0_r.
  - cbn [repeat app loadingText_run interval_set counter seq flat_map].
    rewrite IH. replace (S i + k)%nat with (i + S k)%nat by lia. reflexivity.
Qed.

Lemma loadingText_run_cleared textFrames speedMS m :
  ∀ i, loadingText_run textFrames speedMS (repeat Tick m) (mkSpinner i false) = [].
Proof. induction m as [| m IH]; intros i; [reflexivity | exact (IH i)]. Qed.

(** X5: a spinner that ticks [k] times and is then cancelled has written,
    for tick number [j], a carriage return and frame [j mod n] of its [n]
    frames, then one line break; the frames repeat with period [n]; and
    ticks after the cancellation write nothing. *)
Theorem loadingText_cycles_until_cancelled
        (textFrames : list string) (speedMS : Z) (k m : nat) :
  loadingText textFrames speedMS (repeat Tick k ++ Cancel :: repeat Tick m)
  = spinner_ticks textFrames speedMS 0 k ++ [StdoutWrite newline]
  ∧ ∀ j, frame_at textFrames (j + length textFrames) = frame_at textFrames j.
Proof.
  split.
  - unfold loadingText. rewrite loadingText_run_ticks.
    cbn [loadingText_run counter]. now rewrite loadingText_run_cleared.
  - intros j. unfold frame_at. destruct textFrames as [| f fs]; [reflexivity |].
    f_equal. set (n := length (f :: fs)).
    replace (j + n)%nat with (j + 1 * n)%nat by lia.
    apply Nat.Div0.mod_add.
Qed.

(** ** The callback listener, continued *)

Lemma serve_idle reqs :
  ∀ l, forallb idle_request reqs = true → serve reqs l = l.
Proof.
  induction reqs as [| r reqs IH]; intros l H; [reflexivity |].
  cbn [forallb] in H. apply andb_prop in H as [Hr Hrest].
  cbn [serve]. destruct (listening l); [| reflexivity].
  assert (E : handle_request r l = l).
  { unfold handle_request, idle_request, matches_callback in *.
    destruct (-1 <? indexOf (req_url r) "/oauth2callback"); [| reflexivity].
    cbn [negb orb] in Hr. destruct (searchParams r) as [ps |]; [| discriminate].
    apply andb_prop in Hr as [Hc He]. apply negb_true_iff in Hc, He.
    now rewrite Hc, He. }
  rewrite E. now apply IH.
Qed.

Lemma serve_app pre post l : serve (pre ++ post) l = serve post (serve pre l).
Proof.
  revert l. induction pre as [| r pre IH]; intros l; [reflexivity |].
  cbn [app serve]. destruct (listening l) eqn:E; [apply IH |].
  now rewrite serve_closed.
Qed.

(** X6: when the first request that has an effect is a callback without a
    usable code but with a non-empty [error] (the user declined), the
    promise rejects with that error, the one reply sent is the cancellation
    page, the server is closed, and requests that come later change
    nothing. *)
Theorem callback_error_rejects (pre post : list request) (req : request)
        (ps : list (string * string)) (error : string) :
  forallb idle_request pre = true →
  matches_callback req = true →
  searchParams req = Some ps →
  truthy_str (searchParams_get "code" ps) = false →
  searchParams_get "error" ps = Some error →
  error ≠ EmptyString →
  getAuthToken (pre ++ req :: post) = Threw error
  ∧ serve (pre ++ req :: post) listen
    = mkListener (Rejected error) false
        ["Authentication canceled. Please return to the console."] false.
Proof.
  intros Hpre Hm Hps Hcode Herr Hne.
  assert (E : serve (pre ++ req :: post) listen
              = mkListener (Rejected error) false
                  ["Authentication canceled. Please return to the console."] false).
  { rewrite serve_app, (serve_idle _ _ Hpre). cbn [serve listen listening].
    unfold handle_request. unfold matches_callback in Hm.
    rewrite Hm, Hps, Hcode, Herr. cbn [truthy_str].
    destruct (String.eqb_spec error ""); [contradiction |]. cbn [negb].
    rewrite serve_closed by reflexivity. reflexivity. }
  unfold getAuthToken. rewrite E. split; reflexivity.
Qed.

Lemma callback_error_rejects_witness :
  getAuthToken
    ([mkRequest "/favicon.ico" (Some [])]
       ++ mkRequest "/oauth2callback?error=access_denied"
                    (Some [("error", "access_denied")])
       :: [callback_with_code "4/0Ab"])
  = Threw "access_denied".
Proof.
  apply (callback_error_rejects [mkRequest "/favicon.ico" (Some [])]
           [callback_with_code "4/0Ab"]
           (mkRequest "/oauth2callback?error=access_denied"
                      (Some [("error", "access_denied")]))
           [("error", "access_denied")] "access_denied");
    [reflexivity | reflexivity | reflexivity | reflexivity | reflexivity | discriminate].
Defined.

(** X7: as long as only idle requests arrive (other paths, or callbacks
    with neither a code nor an error), the promise stays pending, the
    server keeps listening, and no request has been answered. *)
Theorem callback_waits_for_code_or_error (reqs : list request) :
  forallb idle_request reqs = true →
  getAuthToken reqs = Blocked
  ∧ serve reqs listen = mkListener Pending true [] false.
Proof.
  intros H. unfold getAuthToken. rewrite (serve_idle _ _ H). split; reflexivity.
Qed.

Lemma callback_waits_for_code_or_error_witness :
  getAuthToken [mkRequest "/favicon.ico" (Some []);
                mkRequest "/oauth2callback" (Some []);
                mkRequest "/oauth2callback?code=" (Some [("code", "")])]
  = Blocked.
Proof.
  apply (callback_waits_for_code_or_error
           [mkRequest "/favicon.ico" (Some []);
            mkRequest "/oauth2callback" (Some []);
            mkRequest "/oauth2callback?code=" (Some [("code", "")])]).
  reflexivity.
Defined.

(** ** The consent flow, continued *)

Lemma doOAuth_after_cancelled (pre rest : list consent_round) :
  forallb cancelled pre = true →
  doOAuth (pre ++ rest)
  = (cancelled_passes (length pre) ++ fst (doOAuth rest), snd (doOAuth rest)).
Proof.
  unfold doOAuth. induction pre as [| r pre IH]; intros H.
  - cbn [app length cancelled_passes]. now destruct (doOAuth_on false rest).
  - cbn [forallb] in H. apply andb_prop in H as [Hr Hpre].
    specialize (IH Hpre). unfold cancelled in Hr.
    cbn [app doOAuth_on length cancelled_passes].
    destruct (getAuthToken (callback_requests r)) as [c | e |]; try discriminate.
    apply andb_prop in Hr as [Hclosed Halive].
    apply negb_true_iff in Hclosed, Halive. rewrite Halive, Hclosed, IH. reflexivity.
Qed.

(** X8: every pass in which the user declines costs exactly one more
    browser round trip: after [k] declined passes the flow has shown the
    consent page [k] times, printed the 'consent to both' message [k]
    times, and goes on exactly as a fresh flow would on what follows. *)
Theorem doOAuth_retries_after_cancel (pre rest : list consent_round) :
  forallb cancelled pre = true →
  doOAuth (pre ++ rest)
  = (cancelled_passes (length pre) ++ fst (doOAuth rest), snd (doOAuth rest)).
Proof. apply doOAuth_after_cancelled. Qed.

Lemma doOAuth_retries_after_cancel_witness :
  snd (doOAuth ([declined_round; declined_round] ++ consent first_run))
  = Done (mkTokens (Some "ya29.a0") (Some "1//0g")).
Proof.
  rewrite (doOAuth_retries_after_cancel [declined_round; declined_round]
             (consent first_run) eq_refl).
  reflexivity.
Defined.

(** X9: a failing token exchange ends the flow with an error: it is not
    retried, the user is not prompted again for it, and nothing that would
    follow is consulted.  This holds after any number of declined passes. *)
Theorem doOAuth_exchange_failure_is_final
        (pre rest : list consent_round) (r : consent_round) (code : string) :
  forallb cancelled pre = true →
  getAuthToken (callback_requests r) = Done code →
  token_exchange r = None →
  doOAuth (pre ++ r :: rest)
  = (cancelled_passes (length pre)
       ++ [EvGenerateAuthUrl requested_scopes; EvOpenBrowser; EvGetToken code],
     Threw "getToken failed").
Proof.
  intros Hpre Hcb Hex. rewrite (doOAuth_after_cancelled _ _ Hpre).
  unfold doOAuth. cbn [doOAuth_on].
  rewrite (getAuthToken_done_alive _ _ Hcb), Hcb, Hex. reflexivity.
Qed.

Lemma doOAuth_exchange_failure_is_final_witness :
  snd (doOAuth ([declined_round]
                  ++ mkRound [callback_with_code "4/0Ab"] None TokenInfoThrows
                  :: consent first_run))
  = Threw "getToken failed".
Proof.
  rewrite (doOAuth_exchange_failure_is_final [declined_round] (consent first_run)
             (mkRound [callback_with_code "4/0Ab"] None TokenInfoThrows) "4/0Ab"
             eq_refl eq_refl eq_refl).
  reflexivity.
Defined.

(** X10: when the tokeninfo lookup throws, the error is logged and the
    tokens of that pass are returned unchecked: no further prompt, no
    further pass, whatever would follow. *)
Theorem doOAuth_scope_lookup_failure_is_ignored
        (pre rest : list consent_round) (r : consent_round) (code : string)
        (tk : tokens) :
  forallb cancelled pre = true →
  getAuthToken (callback_requests r) = Done code →
  token_exchange r = Some tk →
  tokeninfo r = TokenInfoThrows →
  doOAuth (pre ++ r :: rest)
  = (cancelled_passes (length pre)
       ++ [EvGenerateAuthUrl requested_scopes; EvOpenBrowser; EvGetToken code;
           EvTokenInfo (access_token tk); EvLogError],
     Done tk).
Proof.
  intros Hpre Hcb Hex Hti. rewrite (doOAuth_after_cancelled _ _ Hpre).
  unfold doOAuth. cbn [doOAuth_on].
  rewrite (getAuthToken_done_alive _ _ Hcb), Hcb, Hex, Hti. reflexivity.
Qed.

Lemma doOAuth_scope_lookup_failure_is_ignored_witness :
  snd (doOAuth ([declined_round]
                  ++ mkRound [callback_with_code "4/0Ab"]
                             (Some (mkTokens (Some "ya29.a0") None)) TokenInfoThrows
                  :: []))
  = Done (mkTokens (Some "ya29.a0") None).
Proof.
  rewrite (doOAuth_scope_lookup_failure_is_ignored [declined_round] []
             (mkRound [callback_with_code "4/0Ab"]
                      (Some (mkTokens (Some "ya29.a0") None)) TokenInfoThrows)
             "4/0Ab" (mkTokens (Some "ya29.a0") None)
             eq_refl eq_refl eq_refl eq_refl).
  reflexivity.
Defined.

Lemma doOAuth_on_provenance (script : list consent_round) (tk : tokens) :
  ∀ port,
    snd (doOAuth_on port script) = Done tk →
    ∃ r, In r script ∧ pass_yields r tk.
Proof.
  induction script as [| r rest IH]; intros [|]; cbn [doOAuth_on snd];
    try discriminate.
  specialize (IH (listening (serve (callback_requests r) listen))).
  destruct (doOAuth_on _ rest) as [t o]. cbn [fst snd] in *.
  assert (Hrest : o = Done tk → ∃ r', In r' (r :: rest) ∧ pass_yields r' tk).
  { intros Ho. destruct (IH Ho) as (r' & Hin & Hy). exists r'. split; [now right | exact Hy]. }
  destruct (uncaught (serve (callback_requests r) listen)); [cbn [snd]; discriminate |].
  destruct (getAuthToken (callback_requests r)) as [code | e |] eqn:Hcb;
    cbn [snd]; [| exact Hrest | discriminate].
  destruct (token_exchange r) as [tk' |] eqn:Hex; cbn [snd]; [| discriminate].
  destruct (tokeninfo r) as [scope |] eqn:Hti.
  - destruct (length (split " " scope) <? 2)%nat eqn:Hlen; cbn [snd]; [exact Hrest |].
    intros H. inversion H; subst tk'. exists r. split; [now left |].
    unfold pass_yields, passes_scope_check. rewrite Hti, Hlen.
    split; [now exists code | split; [exact Hex | reflexivity]].
  - cbn [snd]. intros H. inversion H; subst tk'. exists r. split; [now left |].
    unfold pass_yields, passes_scope_check. rewrite Hti.
    split; [now exists code | split; [exact Hex | reflexivity]].
Qed.

(** X11: tokens that [doOAuth] returns always come from one of its passes:
    a pass whose callback delivered a code, whose exchange produced exactly
    these tokens, and whose scope check either saw at least two entries or
    could not be carried out.  No pass with fewer than two reported scopes
    ever hands out its tokens. *)
Theorem doOAuth_tokens_come_from_a_checked_pass
        (script : list consent_round) (tk : tokens) :
  snd (doOAuth script) = Done tk →
  ∃ r, In r script ∧ pass_yields r tk.
Proof. apply doOAuth_on_provenance. Qed.

Lemma doOAuth_tokens_come_from_a_checked_pass_witness :
  ∃ r, In r (upload_only_round :: consent first_run)
       ∧ pass_yields r (mkTokens (Some "ya29.a0") (Some "1//0g")).
Proof.
  apply (doOAuth_tokens_come_from_a_checked_pass (upload_only_round :: consent first_run)).
  reflexivity.
Defined.

(** ** Session initialization, continued *)

Lemma init_outcome (w : remote) (self : YoutubeAPI) (api : YoutubeAPI) :
  snd (init w self) = Done api →
  (∃ t, refreshToken self = Some t ∧ t ≠ EmptyString
        ∧ silent_refresh w t = RefreshAccepted
        ∧ api = mkYoutubeAPI (SilentlyRefreshed (Some t)) (Some YoutubeV3)
                             (Some t) (youtubeApi self))
  ∨ (∃ tk, snd (doOAuth (consent w)) = Done tk
           ∧ api = mkYoutubeAPI (Exchanged tk) (youTubeAPI self) (refresh_token tk)
                                (Some YoutubeV3)).
Proof.
  assert (Hauth : ∀ s, snd (authorize (consent w) s) = Done api →
                       ∃ tk, snd (doOAuth (consent w)) = Done tk
                             ∧ api = mkYoutubeAPI (Exchanged tk) (youTubeAPI s)
                                       (refresh_token tk) (Some YoutubeV3)).
  { intros s. unfold authorize. destruct (doOAuth (consent w)) as [t [tk | e |]];
      cbn [snd]; intros H; inversion H. now exists tk. }
  unfold init. destruct (refreshToken self) as [t |] eqn:Ht; cbn [truthy_str].
  - destruct (String.eqb_spec t "") as [-> | Hne]; cbn [negb].
    + intros H. right. exact (Hauth _ H).
    + change (default "" (Some t)) with t.
      destruct (silent_refresh w t) eqn:Hr; cbn [isValid].
      * cbn [snd]. intros H. inversion H. left. exists t. repeat split; assumption.
      * intros H. right.
        destruct (authorize (consent w) _) as [tr o] eqn:E. cbn [snd] in H.
        destruct (Hauth (mkYoutubeAPI (RefreshTokenOnly (Some t)) (youTubeAPI self)
                                      (Some t) (youtubeApi self))) as (tk & H1 & H2);
          [rewrite E; exact H |]. now exists tk.
      * intros H. right.
        destruct (authorize (consent w) _) as [tr o] eqn:E. cbn [snd] in H.
        destruct (Hauth (mkYoutubeAPI (RefreshTokenOnly (Some t)) (youTubeAPI self)
                                      (Some t) (youtubeApi self))) as (tk & H1 & H2);
          [rewrite E; exact H |]. now exists tk.
  - intros H. right. exact (Hauth _ H).
Qed.

(** X12: [init] completes in exactly two ways.  Either the stored token is
    non-empty and passed the silent refresh: then it is kept as it is and
    the client holds the refreshed credentials.  Or the consent flow returned
    tokens: then the client holds these tokens and [this.refreshToken] is
    their refresh token, whatever was stored before. *)
Theorem init_completes_in_two_ways (w : remote) (self : YoutubeAPI) (api : YoutubeAPI) :
  snd (init w self) = Done api →
  (∃ t, refreshToken self = Some t ∧ t ≠ EmptyString
        ∧ silent_refresh w t = RefreshAccepted
        ∧ api = mkYoutubeAPI (SilentlyRefreshed (Some t)) (Some YoutubeV3)
                             (Some t) (youtubeApi self))
  ∨ (∃ tk, snd (doOAuth (consent w)) = Done tk
           ∧ api = mkYoutubeAPI (Exchanged tk) (youTubeAPI self) (refresh_token tk)
                                (Some YoutubeV3)).
Proof. apply init_outcome. Qed.

Lemma init_completes_in_two_ways_witness :
  (∃ t, refreshToken (new_YoutubeAPI (Some "stale")) = Some t ∧ t ≠ EmptyString
        ∧ silent_refresh first_run t = RefreshAccepted
        ∧ mkYoutubeAPI (Exchanged (mkTokens (Some "ya29.a0") (Some "1//0g"))) None
                       (Some "1//0g") (Some YoutubeV3)
          = mkYoutubeAPI (SilentlyRefreshed (Some t)) (Some YoutubeV3)
                         (Some t) (youtubeApi (new_YoutubeAPI (Some "stale"))))
  ∨ (∃ tk, snd (doOAuth (consent first_run)) = Done tk
           ∧ mkYoutubeAPI (Exchanged (mkTokens (Some "ya29.a0") (Some "1//0g"))) None
                          (Some "1//0g") (Some YoutubeV3)
             = mkYoutubeAPI (Exchanged tk) (youTubeAPI (new_YoutubeAPI (Some "stale")))
                            (refresh_token tk) (Some YoutubeV3)).
Proof.
  apply (init_completes_in_two_ways first_run (new_YoutubeAPI (Some "stale"))).
  reflexivity.
Defined.

(** ** Upload and polling, continued *)

Lemma checkVideoProcessing_no_fetch id rs :
  ∀ args, fetches (fst (checkVideoProcessing id args rs)) = 0%nat.
Proof.
  induction rs as [| r rest IH]; intros args; [reflexivity |].
  cbn [checkVideoProcessing]. destruct (strict_eq_str _ _); [reflexivity |].
  specialize (IH [JStr id; js_or (timeLeftMs_of r) (param 0 args)]).
  destruct (checkVideoProcessing id _ rest) as [t o]. exact IH.
Qed.

(** X13: the two loops run one after the other.  While no status answer
    reports "succeeded", [processing] is still in the video loop: it has
    not fetched a thumbnail and what the thumbnail loop would be answered
    plays no part.  Once an answer reports it, the thumbnail loop starts,
    and its outcome is the outcome of [processing]. *)
Theorem processing_is_sequential (id : string) (rounds : list thumb_round) :
  (∀ rs, forallb still_pending rs = true →
         processing id rs rounds
         = (fst (checkVideoProcessing id [JNum 3000] rs), Blocked)
         ∧ fetches (fst (processing id rs rounds)) = 0%nat)
  ∧ (∀ pre r post,
        forallb still_pending pre = true →
        succeeded r = true →
        processing id (pre ++ r :: post) rounds
        = (fst (checkVideoProcessing id [JNum 3000] (pre ++ r :: post))
             ++ fst (checkThumbnailProcessing id rounds),
           snd (checkThumbnailProcessing id rounds))).
Proof.
  split.
  - intros rs H. unfold processing.
    destruct (checkVideoProcessing_pending id rs [JNum 3000] H) as [Ho _].
    pose proof (checkVideoProcessing_no_fetch id rs [JNum 3000]) as Hf.
    destruct (checkVideoProcessing id [JNum 3000] rs) as [t o].
    cbn [fst snd] in *. subst o. split; [reflexivity | exact Hf].
  - intros pre r post Hpre Hr. unfold processing.
    destruct (checkVideoProcessing_done id pre r post [JNum 3000] Hpre Hr) as [Ho _].
    destruct (checkVideoProcessing id [JNum 3000] (pre ++ r :: post)) as [t o].
    cbn [fst snd] in *. subst o.
    now destruct (checkThumbnailProcessing id rounds).
Qed.

Lemma processing_is_sequential_witness :
  processing "dQw4w9WgXcQ" [answer "processing" None]
             [mkThumbRound (mkResponse []) FetchThrows]
  = (fst (checkVideoProcessing "dQw4w9WgXcQ" [JNum 3000] [answer "processing" None]),
     Blocked)
  ∧ snd (processing "dQw4w9WgXcQ" ([answer "processing" None] ++ answer "succeeded" None :: [])
           [mkThumbRound (mkResponse []) FetchThrows])
    = Done tt.
Proof.
  split.
  - apply (proj1 (processing_is_sequential "dQw4w9WgXcQ"
                    [mkThumbRound (mkResponse []) FetchThrows])
             [answer "processing" None]).
    reflexivity.
  - rewrite (proj2 (processing_is_sequential "dQw4w9WgXcQ"
                      [mkThumbRound (mkResponse []) FetchThrows])
               [answer "processing" None] (answer "succeeded" None) []
               eq_refl eq_refl).
    reflexivity.
Defined.

Lemma checkVideoProcessing_done_needs_success id rs :
  ∀ args,
    snd (checkVideoProcessing id args rs) = Done tt → existsb succeeded rs = true.
Proof.
  induction rs as [| r rest IH]; intros args; cbn [checkVideoProcessing existsb snd];
    [discriminate |].
  fold (succeeded r). destruct (succeeded r); [reflexivity |].
  specialize (IH [JStr id; js_or (timeLeftMs_of r) (param 0 args)]).
  destruct (checkVideoProcessing id _ rest) as [t o]. exact IH.
Qed.

Lemma checkThumbnailProcessing_done_needs_end id rounds :
  snd (checkThumbnailProcessing id rounds) = Done tt →
  existsb ends_thumbnail_loop rounds = true.
Proof.
  unfold ends_thumbnail_loop.
  induction rounds as [| r rest IH]; [discriminate |].
  cbn [existsb]. destruct (retries r) eqn:Hr; [| reflexivity].
  destruct (checkThumbnailProcessing_retry id r rest Hr) as (Ho & _).
  rewrite Ho. exact IH.
Qed.

Lemma polls_progress (bs : list float) (size : float) (tail : list upload_event) :
  polls (map (fun b => EvProgress (Progress.progress b size)) bs ++ tail) = polls tail.
Proof. induction bs as [| b bs IH]; [reflexivity | exact IH]. Qed.

(** X14: when the remote rejects the insert, [uploadVideo] logs the error
    and fails with it: the status of the video is never polled, whatever
    answers would have been available. *)
Theorem uploadVideo_insert_rejected (self : YoutubeAPI) (w : upload_world)
        (videoDetails : details) (h : youtube_service) :
  youTubeAPI self = Some h →
  insert_id w = None →
  snd (uploadVideo self w videoDetails) = Threw "insert rejected"
  ∧ polls (fst (uploadVideo self w videoDetails)) = 0%nat
  ∧ last (fst (uploadVideo self w videoDetails)) = Some EvConsoleError.
Proof.
  intros Hh Hid. unfold uploadVideo, upload. rewrite Hh, Hid. cbn [fst snd].
  split; [reflexivity |]. split.
  - cbn [polls]. apply polls_progress.
  - rewrite app_comm_cons. apply last_snoc.
Qed.

Lemma uploadVideo_insert_rejected_witness :
  snd (uploadVideo (mkYoutubeAPI NoCredentials (Some YoutubeV3) (Some "1//0g") None)
                   (sample_upload None) (mkDetails None None))
  = Threw "insert rejected".
Proof.
  apply (uploadVideo_insert_rejected
           (mkYoutubeAPI NoCredentials (Some YoutubeV3) (Some "1//0g") None)
           (sample_upload None) (mkDetails None None) YoutubeV3);
    reflexivity.
Defined.

Lemma uploadVideo_done_outcome (self : YoutubeAPI) (w : upload_world)
        (videoDetails : details) (id : string) :
  snd (uploadVideo self w videoDetails) = Done id →
  youTubeAPI self = Some YoutubeV3
  ∧ insert_id w = Some id
  ∧ existsb succeeded (status_answers w) = true
  ∧ existsb ends_thumbnail_loop (thumbnail_answers w) = true
  ∧ head (fst (uploadVideo self w videoDetails))
    = Some (EvInsert (createDetailsObject (defaults_document w) videoDetails)).
Proof.
  unfold uploadVideo, upload.
  destruct (youTubeAPI self) as [[] |]; cbn [snd]; [| discriminate].
  destruct (insert_id w) as [id' |]; cbn [snd]; [| discriminate].
  unfold processing.
  pose proof (checkVideoProcessing_done_needs_success id' (status_answers w) [JNum 3000])
    as Hv.
  destruct (checkVideoProcessing id' [JNum 3000] (status_answers w)) as [t1 [[] | e |]];
    cbn [snd] in *; try discriminate.
  pose proof (checkThumbnailProcessing_done_needs_end id' (thumbnail_answers w)) as Ht.
  destruct (checkThumbnailProcessing id' (thumbnail_answers w)) as [t2 [[] | e |]];
    cbn [fst snd] in *; try discriminate.
  intros H. inversion H; subst id'.
  repeat split; try reflexivity; auto.
Qed.

(** X15: [uploadVideo] hands back an id only if the private service handle
    was set, the insert returned this very id, some status answer reported
    "succeeded", and some pass ended the thumbnail loop; the request body
    of the insert was the merged metadata. *)
Theorem uploadVideo_returns_the_inserted_id (self : YoutubeAPI) (w : upload_world)
        (videoDetails : details) (id : string) :
  snd (uploadVideo self w videoDetails) = Done id →
  youTubeAPI self = Some YoutubeV3
  ∧ insert_id w = Some id
  ∧ existsb succeeded (status_answers w) = true
  ∧ existsb ends_thumbnail_loop (thumbnail_answers w) = true
  ∧ head (fst (uploadVideo self w videoDetails))
    = Some (EvInsert (createDetailsObject (defaults_document w) videoDetails)).
Proof. apply uploadVideo_done_outcome. Qed.

Lemma uploadVideo_returns_the_inserted_id_witness :
  insert_id (sample_upload (Some "dQw4w9WgXcQ")) = Some "dQw4w9WgXcQ"
  ∧ existsb succeeded (status_answers (sample_upload (Some "dQw4w9WgXcQ"))) = true.
Proof.
  pose proof (uploadVideo_returns_the_inserted_id
                (mkYoutubeAPI NoCredentials (Some YoutubeV3) (Some "1//0g") None)
                (sample_upload (Some "dQw4w9WgXcQ")) (mkDetails None None)
                "dQw4w9WgXcQ" eq_refl) as (_ & H1 & H2 & _).
  split; assumption.
Defined.

(** ** Metadata merge, continued *)

(** X16: the merged sections have exactly the keys of the defaults and of
    the caller's document together: no default key is lost and no key is
    made up. *)
Theorem createDetailsObject_keys (defaults userDefined : details) :
  dom (snippet_of (createDetailsObject defaults userDefined))
  = dom (snippet_of defaults) ∪ dom (snippet_of userDefined)
  ∧ dom (status_of_details (createDetailsObject defaults userDefined))
    = dom (status_of_details defaults) ∪ dom (status_of_details userDefined).
Proof.
  unfold snippet_of, status_of_details, createDetailsObject, spread2.
  cbn [snippet status].
  change (spread (Some ?m)) with m.
  split; rewrite dom_union_L; apply (comm_L (∪)).
Qed.

(** X17: overrides compose.  Merging [u2] over the result of merging [u1]
    over the defaults is merging, over the defaults, the result of merging
    [u2] over [u1]; and merging a document without sections changes no
    section. *)
Theorem createDetailsObject_composes (defaults u1 u2 : details) :
  createDetailsObject (createDetailsObject defaults u1) u2
  = createDetailsObject defaults (createDetailsObject u1 u2)
  ∧ createDetailsObject defaults (mkDetails None None)
    = mkDetails (Some (snippet_of defaults)) (Some (status_of_details defaults)).
Proof.
  unfold createDetailsObject, spread2, snippet_of, status_of_details.
  cbn [snippet status]. change (spread (Some ?m)) with m. split.
  - now rewrite !(assoc_L (∪)).
  - change (spread None) with (∅ : gmap string jsval).
    now rewrite !(left_id_L ∅ (∪)).
Qed.

(** X18: in the upload that the command line starts, the title and the
    description are always the ones typed at the prompt, also when typed
    empty; every other snippet field and the whole status section are those
    of the defaults document. *)
Theorem cli_details_override (defaults : details) (a : prompt_answers) (k : string) :
  snippet_of (createDetailsObject defaults (cli_details a)) !! k
  = (if decide (k = "title") then Some (JStr (videoTitle a))
     else if decide (k = "description") then Some (JStr (videoDescription a))
     else snippet_of defaults !! k)
  ∧ status_of_details (createDetailsObject defaults (cli_details a))
    = status_of_details defaults.
Proof.
  split.
  - unfold snippet_of at 1. unfold createDetailsObject, cli_details.
    cbn [snippet]. change (spread (Some ?m)) with m. rewrite spread2_lookup.
    change (spread (Some ?m)) with m. fold (snippet_of defaults).
    unfold spread, default, from_option, id.
    destruct (decide (k = "title")) as [-> | Ht].
    + now rewrite lookup_insert_eq.
    + rewrite lookup_insert_ne by congruence.
      destruct (decide (k = "description")) as [-> | Hd].
      * now rewrite lookup_insert_eq.
      * now rewrite lookup_insert_ne, lookup_empty by congruence.
  - unfold status_of_details, createDetailsObject, cli_details, spread2.
    cbn [status]. change (spread (Some ?m)) with m.
    change (spread None) with (∅ : gmap string jsval).
    now rewrite (left_id_L ∅ (∪)).
Qed.

(** ** The whole program *)

Lemma start_session_outcome store w api store' :
  start_session store w = Done (api, store') →
  snd (init w (new_YoutubeAPI (read_refresh_token store))) = Done api
  ∧ ∃ t, refreshToken api = Some t ∧ store' = save_refresh_token store t.
Proof.
  unfold start_session.
  destruct (snd (init w (new_YoutubeAPI (read_refresh_token store)))) as [a | e |];
    try discriminate.
  destruct (refreshToken a) as [t |] eqn:Ht; try discriminate.
  intros H. inversion H; subst. split; [reflexivity |]. now exists t.
Qed.

Lemma main_done_outcome
        (store store' : gmap (string * string) string) (w : remote)
        (uw : upload_world) (a : prompt_answers) (link : string) :
  main store w uw a = Done (link, store') →
  ∃ t id,
    read_refresh_token store = Some t
    ∧ silent_refresh w t = RefreshAccepted
    ∧ insert_id uw = Some id
    ∧ link = watch_url id
    ∧ store' = save_refresh_token store t.
Proof.
  unfold main. destruct (start_session store w) as [[api st] | e |] eqn:Hs;
    try discriminate.
  destruct (start_session_outcome _ _ _ _ Hs) as (Hinit & t & Ht & Hst).
  destruct (snd (uploadVideo api uw (cli_details a))) as [id | e |] eqn:Hu;
    try discriminate.
  intros H. inversion H; subst link store'. clear H.
  destruct (uploadVideo_done_outcome _ _ _ _ Hu) as (Hh & Hid & _).
  destruct (init_outcome _ _ _ Hinit) as [(t0 & Hr & Hne & Hacc & Hapi) | (tk & _ & Hapi)].
  - cbn [new_YoutubeAPI refreshToken] in Hr. subst api. cbn [refreshToken] in Ht.
    inversion Ht; subst t0. exists t, id. repeat split; assumption.
  - subst api. cbn [youTubeAPI new_YoutubeAPI] in Hh. discriminate.
Qed.

(** X19: a run of the program ends with a link only if the token read at
    startup passed the silent refresh.  The link is then the watch address
    of the id the insert returned, and the store is rewritten with the
    token that was read.  A run that went through the consent flow never
    gets as far as a link. *)
Theorem main_completes_only_after_silent_refresh
        (store store' : gmap (string * string) string) (w : remote)
        (uw : upload_world) (a : prompt_answers) (link : string) :
  main store w uw a = Done (link, store') →
  ∃ t id,
    read_refresh_token store = Some t
    ∧ silent_refresh w t = RefreshAccepted
    ∧ insert_id uw = Some id
    ∧ link = watch_url id
    ∧ store' = save_refresh_token store t.
Proof. apply main_done_outcome. Qed.

Lemma main_completes_only_after_silent_refresh_witness :
  ∃ t id,
    read_refresh_token (<[startup_get_key := "1//0g"]> ∅) = Some t
    ∧ silent_refresh (mkRemote (fun _ => RefreshAccepted) []) t = RefreshAccepted
    ∧ insert_id (sample_upload (Some "dQw4w9WgXcQ")) = Some id
    ∧ "https://www.youtube.com/watch?v=dQw4w9WgXcQ" = watch_url id
    ∧ save_refresh_token (<[startup_get_key := "1//0g"]> ∅) "1//0g"
      = save_refresh_token (<[startup_get_key := "1//0g"]> ∅) t.
Proof.
  apply (main_completes_only_after_silent_refresh
           (<[startup_get_key := "1//0g"]> ∅)
           (save_refresh_token (<[startup_get_key := "1//0g"]> ∅) "1//0g")
           (mkRemote (fun _ => RefreshAccepted) [])
           (sample_upload (Some "dQw4w9WgXcQ"))
           (mkAnswers "clip.mp4" "clip" "")
           "https://www.youtube.com/watch?v=dQw4w9WgXcQ").
  reflexivity.
Defined.

Lemma store_after_keeps_startup_entry store w :
  read_refresh_token (store_after store w) = read_refresh_token store.
Proof.
  unfold store_after. destruct (start_session store w) as [[api st] | e |] eqn:Hs;
    try reflexivity.
  destruct (start_session_outcome _ _ _ _ Hs) as (_ & t & _ & ->).
  apply save_then_read.
Qed.

(** X20: with a secret store that tells service names apart exactly, a
    store holding no entry under the key read at startup stays that way
    through every run, and no run, however many follow each other and
    whatever the user and the remote service do, ever ends with a link. *)
Theorem no_run_completes_without_startup_entry
        (store : gmap (string * string) string) (inputs : list run_input) :
  read_refresh_token store = None →
  Forall (fun outcome => ∀ result, outcome ≠ Done result) (runs store inputs).
Proof.
  revert store. induction inputs as [| i rest IH]; intros store Hnone; [constructor |].
  cbn [runs]. constructor.
  - intros [link st] H.
    destruct (main_done_outcome _ _ _ _ _ _ H) as (t & id & Hr & _). congruence.
  - apply IH. now rewrite store_after_keeps_startup_entry.
Qed.

Lemma no_run_completes_without_startup_entry_witness :
  Forall (fun outcome => ∀ result, outcome ≠ Done result)
         (runs ∅ [mkRun first_run (sample_upload (Some "dQw4w9WgXcQ"))
                        (mkAnswers "clip.mp4" "clip" "");
                  mkRun first_run (sample_upload (Some "dQw4w9WgXcQ"))
                        (mkAnswers "clip.mp4" "clip" "")]).
Proof.
  apply (no_run_completes_without_startup_entry ∅). reflexivity.
Defined.

(** ** Upload progress, continued *)

Section ProgressStart.
Local Open Scope float_scope.

(** X21: for a file that is not empty, a progress event with no byte read
    yet reports the number 0. *)
Theorem progress_starts_at_zero (fileSize : float) :
  Progress.finite_nonzero fileSize = true →
  Progress.progress 0 fileSize = 0.
Proof.
  unfold Progress.finite_nonzero. intros H.
  assert (E : 0 / fileSize = 0 ∨ 0 / fileSize = -0).
  { destruct (Prim2SF fileSize) as [| | | s m e] eqn:Hx; try discriminate.
    destruct s; [right | left]; apply Prim2SF_inj; rewrite div_spec, Hx; reflexivity. }
  unfold Progress.progress. destruct E as [-> | ->]; vm_compute; reflexivity.
Qed.

Lemma progress_starts_at_zero_witness : Progress.progress 0 1048576 = 0.
Proof. apply (progress_starts_at_zero 1048576). reflexivity. Defined.

End ProgressStart.
